(** * Teams-Broadcast: the reference store, the turn dispatcher, the
      broadcaster and the message endpoint of [main.py]

    A shallow embedding of the bespoke logic of [main.py]:
    [load_conversation_references], [save_conversation_references],
    [send_adaptive_card], [on_turn] and [messages].

    The Python globals ([CONVERSATION_REFERENCES], the file [REFS_FILE]) and
    the observable effects (printing, opening the file for writing, calls to
    the agent router and to the bot transport) are threaded through a small
    state-and-exception monad.  The bot SDK, the agent router and the HTTP
    framework are outside the repository: the outcome of each call to them is
    a field of the environment record [Env]. *)

From Stdlib Require Import List String Ascii Bool ZArith Lia.
From Stdlib Require Import DecimalString.
Import ListNotations.
Open Scope string_scope.
Open Scope list_scope.

Set Implicit Arguments.

(** ** Python values that come out of [json.load] *)

(** A parsed JSON document.  Numbers are kept as integers: the program only
    ever tests a number for truth. *)
#[warnings="-register-all"]
Inductive json : Type :=
| JNull
| JBool (b : bool)
| JNum (n : Z)
| JStr (s : string)
| JArr (items : list json)
| JObj (members : list (string * json)).

(** Python truth value of a JSON value ([if v], [not v], [a and b]). *)
Definition truthy (v : json) : bool :=
  match v with
  | JNull => false
  | JBool b => b
  | JNum n => negb (Z.eqb n 0)
  | JStr s => negb (String.eqb s "")
  | JArr items => match items with [] => false | _ => true end
  | JObj members => match members with [] => false | _ => true end
  end.

(** [type(v).__name__], as it appears in an [AttributeError]. *)
Definition type_name (v : json) : string :=
  match v with
  | JNull => "NoneType"
  | JBool _ => "bool"
  | JNum _ => "int"
  | JStr _ => "str"
  | JArr _ => "list"
  | JObj _ => "dict"
  end.

Definition of_opt_str (o : option string) : json :=
  match o with
  | Some s => JStr s
  | None => JNull
  end.

(** ** Python dictionaries

    A [dict] keeps its keys in insertion order and the broadcaster's result
    list follows that order, so a dictionary is an association list; a
    dictionary never holds a key twice, which is [dict_wf]. *)
Section Dict.
Variable V : Type.

Definition dict := list (string * V).

Definition keys (d : dict) : list string := map fst d.

Definition dict_wf (d : dict) : Prop := NoDup (keys d).

Fixpoint dict_get (d : dict) (k : string) : option V :=
  match d with
  | [] => None
  | (k', v) :: rest => if String.eqb k k' then Some v else dict_get rest k
  end.

(** [k in d] *)
Definition dict_has (d : dict) (k : string) : bool :=
  match dict_get d k with
  | Some _ => true
  | None => false
  end.

(** [d[k] = v]: an existing key keeps its place, a new one goes last. *)
Fixpoint dict_set (d : dict) (k : string) (v : V) : dict :=
  match d with
  | [] => [(k, v)]
  | (k', v') :: rest =>
      if String.eqb k k' then (k', v) :: rest
      else (k', v') :: dict_set rest k v
  end.
End Dict.

Arguments dict_get {V} d k.
Arguments dict_has {V} d k.
Arguments dict_set {V} d k v.
Arguments keys {V} d.
Arguments dict_wf {V} d.

(** [v.get(k)] on a parsed dictionary: the member, or [None]. *)
Definition json_get (members : list (string * json)) (k : string) : json :=
  match dict_get members k with
  | Some v => v
  | None => JNull
  end.

(** ** Exceptions *)

Inductive ExnClass : Type :=
| ValueError
| JSONDecodeError      (* a subclass of ValueError *)
| AttributeError
| TypeError
| OtherError (name : string).

Record Exn : Type := mkExn { exn_class : ExnClass; exn_str : string }.

(** [isinstance(e, ValueError)] *)
Definition is_ValueError (e : Exn) : bool :=
  match exn_class e with
  | ValueError | JSONDecodeError => true
  | _ => false
  end.

Definition no_attribute (tname attr : string) : Exn :=
  mkExn AttributeError
        ("'" ++ tname ++ "' object has no attribute '" ++ attr ++ "'").

Inductive Res (A : Type) : Type :=
| Ok (a : A)
| Raise (e : Exn).

Arguments Ok {A} a.
Arguments Raise {A} e.

(** ** The SDK's identity objects

    [ChannelAccount] and [ConversationAccount] are classes of the bot SDK.
    The program reads their [id] attribute, tests them for truth (an instance
    is always true) and calls [as_dict()], which yields the plain mapping of
    the attributes that are set.  An instance is represented by its [id] and
    the mapping of its other set attributes. *)
Record Account : Type := mkAccount {
  id : option string;
  others : list (string * json)
}.

Definition as_dict (a : Account) : list (string * json) :=
  match id a with
  | Some i => ("id", JStr i) :: others a
  | None => others a
  end.

(** An attribute that holds either an SDK object or a plain JSON value
    ([None] is [PJson JNull]). *)
Inductive pyval : Type :=
| PObj (a : Account)
| PJson (v : json).

Definition of_opt_account (o : option Account) : pyval :=
  match o with
  | Some a => PObj a
  | None => PJson JNull
  end.

Definition py_truthy (p : pyval) : bool :=
  match p with
  | PObj _ => true
  | PJson v => truthy v
  end.

(** [p.id] *)
Definition attr_id (p : pyval) : Res json :=
  match p with
  | PObj a => Ok (of_opt_str (id a))
  | PJson v => Raise (no_attribute (type_name v) "id")
  end.

(** [p.as_dict() if p else None] *)
Definition as_dict_or_none (p : pyval) : Res json :=
  match p with
  | PObj a => Ok (JObj (as_dict a))
  | PJson v =>
      if truthy v then Raise (no_attribute (type_name v) "as_dict")
      else Ok JNull
  end.

(** ** Conversation references

    The program builds a [ConversationReference] at two places: [on_turn]
    passes attributes of the activity (strings and SDK objects, line 215),
    and [load_conversation_references] passes the members of a parsed file
    entry as keyword arguments (line 77), which the constructor stores as they
    are. *)
Inductive ConversationReference : Type :=
| Built (activity_id : option string)
        (user bot conversation : option Account)
        (channel_id service_url : option string)
| Loaded (val : list (string * json)).

Definition ref_activity_id (r : ConversationReference) : json :=
  match r with
  | Built a _ _ _ _ _ => of_opt_str a
  | Loaded val => json_get val "activity_id"
  end.

Definition ref_user (r : ConversationReference) : pyval :=
  match r with
  | Built _ u _ _ _ _ => of_opt_account u
  | Loaded val => PJson (json_get val "user")
  end.

Definition ref_bot (r : ConversationReference) : pyval :=
  match r with
  | Built _ _ b _ _ _ => of_opt_account b
  | Loaded val => PJson (json_get val "bot")
  end.

Definition ref_conversation (r : ConversationReference) : pyval :=
  match r with
  | Built _ _ _ c _ _ => of_opt_account c
  | Loaded val => PJson (json_get val "conversation")
  end.

Definition ref_channel_id (r : ConversationReference) : json :=
  match r with
  | Built _ _ _ _ c _ => of_opt_str c
  | Loaded val => json_get val "channel_id"
  end.

Definition ref_service_url (r : ConversationReference) : json :=
  match r with
  | Built _ _ _ _ _ s => of_opt_str s
  | Loaded val => json_get val "service_url"
  end.

(** [v != s] for a stored JSON value [v] and a string-or-[None] [s]. *)
Definition differs (v : json) (s : option string) : bool :=
  match v, s with
  | JNull, None => false
  | JStr a, Some b => negb (String.eqb a b)
  | _, _ => true
  end.

(** ** Inbound activities

    The attributes of the SDK's [Activity] that [on_turn] reads, as the SDK's
    deserializer leaves them: a string or [None], an SDK object or [None],
    a list of SDK objects or [None]. *)
Record Activity : Type := mkActivity {
  act_type : option string;
  act_id : option string;
  act_channel_id : option string;
  act_service_url : option string;
  act_conversation : option Account;
  act_from_property : option Account;
  act_recipient : option Account;
  act_text : option string;
  act_members_added : option (list Account)
}.

(** [ActivityTypes.message] and [ActivityTypes.conversation_update] are
    string-valued enumeration members. *)
Definition ActivityTypes_message : string := "message".
Definition ActivityTypes_conversation_update : string := "conversationUpdate".

(** ** The card and the outbound activity of the broadcaster *)

Definition ADAPTIVE_CARD : json :=
  JObj [
    ("type", JStr "AdaptiveCard");
    ("$schema", JStr "http://adaptivecards.io/schemas/adaptive-card.json");
    ("version", JStr "1.5");
    ("body", JArr [
       JObj [("type", JStr "TextBlock");
             ("text", JStr "Test Notification");
             ("weight", JStr "bolder");
             ("size", JStr "medium")];
       JObj [("type", JStr "TextBlock");
             ("text", JStr "Hey, you received a new message!");
             ("wrap", JBool true)]]);
    ("actions", JArr [
       JObj [("type", JStr "Action.OpenUrl");
             ("title", JStr "Learn More");
             ("url", JStr "https://adaptivecards.io")]])
  ].

Record Attachment : Type := mkAttachment {
  content_type : string;
  content : json
}.

Record CardActivity : Type := mkCardActivity {
  card_type : string;
  card_channel_id : json;
  card_service_url : json;
  card_conversation : pyval;
  card_from_property : pyval;
  card_recipient : pyval;
  card_attachments : list Attachment
}.

(** ** The world: globals, the backing file, observable effects *)

(** The backing file: absent, or present with the outcome [json.load] has on
    its content.  What [json.dump] wrote is what [json.load] reads back. *)
Inductive File : Type :=
| NoFile
| Content (parse : Res json).

(** A file just opened with mode ['w'] is empty; [json.load] rejects it. *)
Definition empty_file : File :=
  Content (Raise (mkExn JSONDecodeError
                        "Expecting value: line 1 column 1 (char 0)")).

Inductive Event : Type :=
| Print (line : string)
| OpenWrite                                   (* open(REFS_FILE, 'w') *)
| Dump (data : json)                          (* json.dump(data, f) *)
| RouterRun (text : option string)            (* supervisor_team.run *)
| Send (text : string)                        (* turn_context.send_activity *)
| Continue (r : ConversationReference) (a : CardActivity).
                                              (* adapter.continue_conversation *)

Record World : Type := mkWorld {
  refs : dict ConversationReference;          (* CONVERSATION_REFERENCES *)
  file : File;                                (* REFS_FILE *)
  trace : list Event
}.

(** How [json.dump(data, f)] ends: the file holds [data], or the call raised
    [e] part of the way and [json.load] makes [remains] of what is in the
    file. *)
Inductive Written : Type :=
| Complete
| Broken (e : Exn) (remains : Res json).

(** The parts of the system that are not in the repository.  Each field is
    the outcome of one call: a value, or the exception it raises. *)
Record Env : Type := mkEnv {
  supervisor_run : option string -> Res string;   (* .run(text).content *)
  send_activity : string -> Res unit;
  continue_conversation : ConversationReference -> CardActivity -> Res unit;
  deserialize : json -> Res Activity;             (* Activity().deserialize *)
  authenticate : Activity -> string -> Res unit;
  open_write : Res unit;                          (* open(REFS_FILE, 'w') *)
  dump : json -> Written                          (* json.dump(data, f) *)
}.

(** ** A state-and-exception monad over the world

    A raised exception leaves the world as it is at that point: nothing is
    rolled back. *)
Definition M (A : Type) : Type := World -> World * Res A.

Definition ret {A} (a : A) : M A := fun w => (w, Ok a).

Definition raise {A} (e : Exn) : M A := fun w => (w, Raise e).

Definition bind {A B} (m : M A) (k : A -> M B) : M B :=
  fun w =>
    match m w with
    | (w', Ok a) => k a w'
    | (w', Raise e) => (w', Raise e)
    end.

(** [try: m  except Exception as e: h e] *)
Definition try_except {A} (m : M A) (h : Exn -> M A) : M A :=
  fun w =>
    match m w with
    | (w', Ok a) => (w', Ok a)
    | (w', Raise e) => h e w'
    end.

Definition lift {A} (r : Res A) : M A := fun w => (w, r).

Definition emit (ev : Event) : M unit :=
  fun w => (mkWorld (refs w) (file w) (trace w ++ [ev]), Ok tt).

Definition print (line : string) : M unit := emit (Print line).

Definition get_refs : M (dict ConversationReference) :=
  fun w => (w, Ok (refs w)).

Definition set_refs (d : dict ConversationReference) : M unit :=
  fun w => (mkWorld d (file w) (trace w), Ok tt).

Definition get_file : M File := fun w => (w, Ok (file w)).

Definition set_file (f : File) : M unit :=
  fun w => (mkWorld (refs w) f (trace w), Ok tt).

Declare Scope monad_scope.
Delimit Scope monad_scope with monad.
Notation "x <- m ;; k" := (bind m (fun x => k))
  (at level 61, m at next level, right associativity) : monad_scope.
Notation "m ;; k" := (bind m (fun _ => k))
  (at level 61, right associativity) : monad_scope.
Open Scope monad_scope.

(** [str(n)] for a length. *)
Definition str_nat (n : nat) : string :=
  NilEmpty.string_of_uint (Nat.to_uint n).

(** An f-string field: [None] prints as the word. *)
Definition str_opt (o : option string) : string :=
  match o with
  | Some s => s
  | None => "None"
  end.

(** ** The reference store: [load_conversation_references] *)

(** The test of line 76:
    [key.startswith("msteams:") and val.get('conversation')
       and val['conversation'].get('id')].
    Only a dictionary has [get]. *)
Definition accepts (key : string) (val : json) : Res bool :=
  if String.prefix "msteams:" key then
    match val with
    | JObj members =>
        let conv := json_get members "conversation" in
        if truthy conv then
          match conv with
          | JObj cm => Ok (truthy (json_get cm "id"))
          | _ => Raise (no_attribute (type_name conv) "get")
          end
        else Ok false
    | _ => Raise (no_attribute (type_name val) "get")
    end
  else Ok false.

(** The constructor call of line 77, [ConversationReference] applied to the
    members of [val] as keyword arguments: they become the attributes of the
    reference, stored as they are.  A member named [self] clashes with the
    constructor's own first parameter, and only a dictionary can be
    unpacked: both raise [TypeError]. *)
Definition reference_of (val : json) : Res ConversationReference :=
  match val with
  | JObj members =>
      if dict_has members "self"
      then Raise (mkExn TypeError
                        "ConversationReference.__init__() got multiple values for argument 'self'")
      else Ok (Loaded members)
  | _ =>
      Raise (mkExn TypeError
                   ("argument after ** must be a mapping, not "
                    ++ type_name val))
  end.

Fixpoint load_loop (items : list (string * json))
         (valid_refs : dict ConversationReference)
  : M (dict ConversationReference) :=
  match items with
  | [] => ret valid_refs
  | (key, val) :: rest =>
      ok <- lift (accepts key val) ;;
      if ok then
        r <- lift (reference_of val) ;;
        load_loop rest (dict_set valid_refs key r)
      else
        print ("Skipping invalid or non-Teams reference " ++ key) ;;
        load_loop rest valid_refs
  end.

(** [data.items()] *)
Definition json_items (data : json) : Res (list (string * json)) :=
  match data with
  | JObj members => Ok members
  | _ => Raise (no_attribute (type_name data) "items")
  end.

Definition load_conversation_references : M unit :=
  try_except
    (f <- get_file ;;
     match f with
     | NoFile => ret tt
     | Content parse =>
         data <- lift parse ;;
         items <- lift (json_items data) ;;
         valid_refs <- load_loop items [] ;;
         set_refs valid_refs ;;
         print ("Loaded " ++ str_nat (List.length valid_refs)
                ++ " valid conversation references")
     end)
    (fun e => print ("Error loading conversation references: " ++ exn_str e)).

(** ** The reference store: [save_conversation_references] *)

(** One value of the dictionary comprehension of lines 90-97; the fields are
    evaluated in the order written. *)
Definition serialize_ref (r : ConversationReference) : Res json :=
  match as_dict_or_none (ref_user r) with
  | Raise e => Raise e
  | Ok u =>
      match as_dict_or_none (ref_bot r) with
      | Raise e => Raise e
      | Ok b =>
          match as_dict_or_none (ref_conversation r) with
          | Raise e => Raise e
          | Ok c =>
              Ok (JObj [("activity_id", ref_activity_id r);
                        ("user", u);
                        ("bot", b);
                        ("conversation", c);
                        ("channel_id", ref_channel_id r);
                        ("service_url", ref_service_url r)])
          end
      end
  end.

Fixpoint serialize_all (d : dict ConversationReference)
  : Res (list (string * json)) :=
  match d with
  | [] => Ok []
  | (key, r) :: rest =>
      match serialize_ref r with
      | Raise e => Raise e
      | Ok v =>
          match serialize_all rest with
          | Raise e => Raise e
          | Ok data => Ok ((key, v) :: data)
          end
      end
  end.

(** [json.dump(data, f)] on the file just opened. *)
Definition write_out (env : Env) (data : json) : M unit :=
  match dump env data with
  | Complete => set_file (Content (Ok data))
  | Broken e remains => set_file (Content remains) ;; raise e
  end.

Definition save_conversation_references (env : Env) : M unit :=
  try_except
    (emit OpenWrite ;;
     lift (open_write env) ;;
     set_file empty_file ;;
     d <- get_refs ;;
     data <- lift (serialize_all d) ;;
     emit (Dump (JObj data)) ;;
     write_out env (JObj data) ;;
     print ("Saved " ++ str_nat (List.length d) ++ " conversation references"))
    (fun e => print ("Error saving conversation references: " ++ exn_str e)).

(** ** The broadcaster: [send_adaptive_card] *)

Record SendResult : Type := mkSendResult {
  res_conversation : string;
  res_status : string;
  res_message : option string
}.

Record BroadcastResult : Type := mkBroadcastResult {
  status : string;
  message : option string;
  results : option (list SendResult)
}.

(** The test of line 172: [not ref.conversation or not ref.conversation.id] *)
Definition missing_conversation (r : ConversationReference) : Res bool :=
  let c := ref_conversation r in
  if negb (py_truthy c) then Ok true
  else
    match attr_id c with
    | Ok i => Ok (negb (truthy i))
    | Raise e => Raise e
    end.

Definition card_activity (r : ConversationReference) : CardActivity :=
  mkCardActivity ActivityTypes_message
                 (ref_channel_id r)
                 (ref_service_url r)
                 (ref_conversation r)
                 (ref_bot r)
                 (ref_user r)
                 [mkAttachment "application/vnd.microsoft.card.adaptive"
                               ADAPTIVE_CARD].

Fixpoint send_loop (env : Env) (items : dict ConversationReference)
         (results : list SendResult) : M (list SendResult) :=
  match items with
  | [] => ret results
  | (key, r) :: rest =>
      missing <- lift (missing_conversation r) ;;
      if missing then
        print ("Skipping invalid conversation reference " ++ key
               ++ ": missing conversation.id") ;;
        send_loop env rest
          (results ++ [mkSendResult key "error" (Some "Invalid conversation.id")])
      else
        print ("Sending Adaptive Card to conversation: " ++ key) ;;
        let activity := card_activity r in
        results' <-
          try_except
            (emit (Continue r activity) ;;
             lift (continue_conversation env r activity) ;;
             print ("Adaptive Card sent successfully to " ++ key) ;;
             ret (results ++ [mkSendResult key "success" None]))
            (fun e =>
               print ("Error sending Adaptive Card to " ++ key ++ ": "
                      ++ exn_str e) ;;
               ret (results ++ [mkSendResult key "error" (Some (exn_str e))])) ;;
        send_loop env rest results'
  end.

Definition send_adaptive_card (env : Env) : M BroadcastResult :=
  d <- get_refs ;;
  match d with
  | [] =>
      print "No conversation references available." ;;
      ret (mkBroadcastResult
             "error"
             (Some "No conversation references available. Interact with the bot first.")
             None)
  | _ =>
      rs <- send_loop env d [] ;;
      ret (mkBroadcastResult "completed" None (Some rs))
  end.

(** ** The turn dispatcher: [on_turn] *)

(** [a == b] on strings-or-[None] *)
Definition opt_str_eqb (a b : option string) : bool :=
  match a, b with
  | Some x, Some y => String.eqb x y
  | None, None => true
  | _, _ => false
  end.

(** The reference of lines 215-222. *)
Definition fresh_reference (activity : Activity) : ConversationReference :=
  Built (act_id activity)
        (act_from_property activity)
        (act_recipient activity)
        (act_conversation activity)
        (act_channel_id activity)
        (act_service_url activity).

(** The test of line 214:
    [key not in REFS or REFS[key].service_url != activity.service_url] *)
Definition stale (d : dict ConversationReference) (key : string)
           (service_url : option string) : bool :=
  negb (dict_has d key)
  || match dict_get d key with
     | Some r => differs (ref_service_url r) service_url
     | None => true
     end.

Definition greeting : string := "Hello! How can I assist you today?".

(** The loop of lines 234-237; [activity.recipient.id] is evaluated at each
    member. *)
Fixpoint greet_loop (env : Env) (recipient : option Account)
         (members : list Account) : M unit :=
  match members with
  | [] => ret tt
  | member :: rest =>
      match recipient with
      | None => raise (no_attribute "NoneType" "id")
      | Some bot =>
          if negb (opt_str_eqb (id member) (id bot)) then
            emit (Send greeting) ;;
            lift (send_activity env greeting)
          else greet_loop env recipient rest
      end
  end.

Definition skip_line (activity : Activity) : string :=
  "Skipping invalid activity: channel_id="
  ++ str_opt (act_channel_id activity) ++ ", no conversation.id".

Definition on_turn (env : Env) (activity : Activity) : M unit :=
  match act_conversation activity with
  | None => print (skip_line activity)
  | Some conv =>
      if negb (truthy (of_opt_str (id conv))) then print (skip_line activity)
      else
        let conversation_key : string :=
          (str_opt (act_channel_id activity) ++ ":" ++ str_opt (id conv))%string
        in
        (if opt_str_eqb (act_channel_id activity) (Some "msteams") then
           d <- get_refs ;;
           if stale d conversation_key (act_service_url activity) then
             set_refs (dict_set d conversation_key (fresh_reference activity)) ;;
             print ("Stored/Updated conversation reference for "
                    ++ conversation_key) ;;
             save_conversation_references env
           else ret tt
         else ret tt) ;;
        if opt_str_eqb (act_type activity) (Some ActivityTypes_message) then
          let user_text := act_text activity in
          emit (RouterRun user_text) ;;
          response_text <- lift (supervisor_run env user_text) ;;
          emit (Send response_text) ;;
          lift (send_activity env response_text)
        else
          if opt_str_eqb (act_type activity)
                         (Some ActivityTypes_conversation_update)
          then
            match act_members_added activity with
            | Some (m :: ms) =>
                greet_loop env (act_recipient activity) (m :: ms)
            | _ => ret tt
            end
          else ret tt
  end.

(** ** The message endpoint: [messages] *)

Record Request : Type := mkRequest {
  body : option json;              (* [None]: the body is not JSON *)
  authorization : option string    (* the Authorization header *)
}.

Record HttpResponse : Type := mkHttpResponse {
  status_code : nat;
  response_body : json
}.

(** What the framework answers to a raised [HTTPException]. *)
Definition HTTPException (status_code : nat) (detail : string)
  : HttpResponse :=
  mkHttpResponse status_code (JObj [("detail", JStr detail)]).

(** [await request.json()] *)
Definition request_json (request : Request) : Res json :=
  match body request with
  | Some j => Ok j
  | None =>
      Raise (mkExn JSONDecodeError "Expecting value: line 1 column 1 (char 0)")
  end.

(** [request.headers.get("Authorization", "")] *)
Definition auth_header_of (request : Request) : string :=
  match authorization request with
  | Some h => h
  | None => ""
  end.

(** [adapter.process_activity(activity, auth_header, logic)]: the SDK checks
    the credential, which may raise, then runs [logic] on the turn. *)
Definition process_activity (env : Env) (activity : Activity)
           (auth_header : string) (logic : Activity -> M unit) : M unit :=
  lift (authenticate env activity auth_header) ;;
  logic activity.

Definition messages (env : Env) (request : Request) : M HttpResponse :=
  try_except
    (body <- lift (request_json request) ;;
     activity <- lift (deserialize env body) ;;
     let auth_header := auth_header_of request in
     process_activity env activity auth_header (on_turn env) ;;
     ret (mkHttpResponse 200 (JObj [])))
    (fun e =>
       if is_ValueError e
       then ret (HTTPException 400 "Invalid JSON in request body")
       else ret (HTTPException 500 (exn_str e))).

(** [send_card]: the endpoint returns what the broadcaster returns. *)
Definition send_card (env : Env) : M BroadcastResult :=
  send_adaptive_card env.

(** ** Reading worlds and traces *)

(** The world after some more events. *)
Definition log (w : World) (evs : list Event) : World :=
  mkWorld (refs w) (file w) (trace w ++ evs).

(** The texts the router was run on, in order. *)
Fixpoint router_calls (t : list Event) : list (option string) :=
  match t with
  | [] => []
  | RouterRun text :: rest => text :: router_calls rest
  | _ :: rest => router_calls rest
  end.

(** The replies sent on the turn context, in order. *)
Fixpoint sends (t : list Event) : list string :=
  match t with
  | [] => []
  | Send text :: rest => text :: sends rest
  | _ :: rest => sends rest
  end.

(** The references the transport was asked to continue, in order. *)
Fixpoint continues (t : list Event) : list ConversationReference :=
  match t with
  | [] => []
  | Continue r _ :: rest => r :: continues rest
  | _ :: rest => continues rest
  end.

(** The two halves of the body of [on_turn] after its guard, named for the
    proofs: lines 213-224 and lines 226-237. *)
Definition store_step (env : Env) (activity : Activity)
           (conversation_key : string) : M unit :=
  if opt_str_eqb (act_channel_id activity) (Some "msteams") then
    d <- get_refs ;;
    if stale d conversation_key (act_service_url activity) then
      set_refs (dict_set d conversation_key (fresh_reference activity)) ;;
      print ("Stored/Updated conversation reference for "
             ++ conversation_key) ;;
      save_conversation_references env
    else ret tt
  else ret tt.

Definition reply_step (env : Env) (activity : Activity) : M unit :=
  if opt_str_eqb (act_type activity) (Some ActivityTypes_message) then
    let user_text := act_text activity in
    emit (RouterRun user_text) ;;
    response_text <- lift (supervisor_run env user_text) ;;
    emit (Send response_text) ;;
    lift (send_activity env response_text)
  else
    if opt_str_eqb (act_type activity)
                   (Some ActivityTypes_conversation_update)
    then
      match act_members_added activity with
      | Some (m :: ms) => greet_loop env (act_recipient activity) (m :: ms)
      | _ => ret tt
      end
    else ret tt.

(** [f"{activity.channel_id}:{activity.conversation.id}"] *)
Definition conversation_key_of (activity : Activity) : string :=
  match act_conversation activity with
  | Some conv =>
      (str_opt (act_channel_id activity) ++ ":" ++ str_opt (id conv))%string
  | None => ""
  end.

(** The activity has a conversation with a non-empty id. *)
Definition identified (activity : Activity) : bool :=
  match act_conversation activity with
  | Some conv => truthy (of_opt_str (id conv))
  | None => false
  end.

(** ** The properties the claims speak of *)



(** A raw file entry on which the test of line 76 does not raise: under a
    Teams key, an object whose conversation member is an object or false. *)
Definition well_shaped (entry : string * json) : bool :=
  if String.prefix "msteams:" (fst entry) then
    match snd entry with
    | JObj members =>
        match json_get members "conversation" with
        | JObj _ => true
        | conv => negb (truthy conv)
        end
    | _ => false
    end
  else true.

(** The reference has a conversation with a non-empty id. *)
Definition conversation_id_ok (r : ConversationReference) : bool :=
  match r with
  | Built _ _ _ (Some conv) _ _ => truthy (of_opt_str (id conv))
  | Built _ _ _ None _ _ => false
  | Loaded val =>
      match json_get val "conversation" with
      | JObj cm => truthy (json_get cm "id")
      | _ => false
      end
  end.

(** The invariant of the store: every key carries the Teams prefix and every
    reference a conversation with a non-empty id. *)
Definition store_inv (d : dict ConversationReference) : Prop :=
  forall key r,
    In (key, r) d ->
    String.prefix "msteams:" key = true /\ conversation_id_ok r = true.

(** The six fields of a reference as JSON, an SDK object read as its plain
    field mapping. *)
Definition json_view (p : pyval) : json :=
  match p with
  | PObj a => JObj (as_dict a)
  | PJson v => v
  end.

Definition six_fields (r : ConversationReference) : list (string * json) :=
  [("activity_id", ref_activity_id r);
   ("user", json_view (ref_user r));
   ("bot", json_view (ref_bot r));
   ("conversation", json_view (ref_conversation r));
   ("channel_id", ref_channel_id r);
   ("service_url", ref_service_url r)].

(** A reference as the dispatcher builds it. *)
Definition is_built (r : ConversationReference) : bool :=
  match r with
  | Built _ _ _ _ _ _ => true
  | Loaded _ => false
  end.


(** The test of line 235: [member.id != activity.recipient.id]. *)
Definition is_stranger (bot member : Account) : bool :=
  negb (opt_str_eqb (id member) (id bot)).


(** What the loop of lines 75-79 prints and what it leaves in [valid_refs],
    read off the items alone. *)
Fixpoint load_lines (items : list (string * json)) : list Event :=
  match items with
  | [] => []
  | (key, val) :: rest =>
      match accepts key val with
      | Ok true =>
          match reference_of val with
          | Ok _ => load_lines rest
          | Raise _ => []
          end
      | Ok false =>
          Print ("Skipping invalid or non-Teams reference " ++ key)
          :: load_lines rest
      | Raise _ => []
      end
  end.

Fixpoint load_result (items : list (string * json))
         (valid_refs : dict ConversationReference)
  : Res (dict ConversationReference) :=
  match items with
  | [] => Ok valid_refs
  | (key, val) :: rest =>
      match accepts key val with
      | Ok true =>
          match reference_of val with
          | Ok r => load_result rest (dict_set valid_refs key r)
          | Raise e => Raise e
          end
      | Ok false => load_result rest valid_refs
      | Raise e => Raise e
      end
  end.

(** The dispatcher's test for recording a reference, as the code computes
    it. *)
Definition tracks (d : dict ConversationReference) (activity : Activity)
  : bool :=
  identified activity
  && opt_str_eqb (act_channel_id activity) (Some "msteams")
  && stale d (conversation_key_of activity) (act_service_url activity).

(** The file [save_conversation_references] leaves for a mapping when the
    file can be opened and written: its serialization, or an empty file when
    serializing raised. *)
Definition saved_file (d : dict ConversationReference) : File :=
  match serialize_all d with
  | Ok data => Content (Ok (JObj data))
  | Raise _ => empty_file
  end.

(** The file [save_conversation_references] leaves in general, from the file
    before and the mapping: untouched when the open raised, else emptied and
    then written as far as the dump got. *)
Definition file_after_save (env : Env) (f : File)
           (d : dict ConversationReference) : File :=
  match open_write env with
  | Raise _ => f
  | Ok _ =>
      match serialize_all d with
      | Raise _ => empty_file
      | Ok data =>
          match dump env (JObj data) with
          | Complete => Content (Ok (JObj data))
          | Broken _ remains => Content remains
          end
      end
  end.

(** The file can be opened for writing and every dump completes. *)
Definition writable (env : Env) : Prop :=
  open_write env = Ok tt /\ forall data, dump env data = Complete.

(** The reference that holds the members of a file entry. *)
Definition stored_as (val : json) : ConversationReference :=
  match val with
  | JObj members => Loaded members
  | _ => Loaded []
  end.

(** The constructor call of line 77 does not raise on the entry. *)
Definition constructible (val : json) : bool :=
  match val with
  | JObj members => negb (dict_has members "self")
  | _ => false
  end.

(** The test of line 76 came out true. *)
Definition accepted (entry : string * json) : bool :=
  match accepts (fst entry) (snd entry) with
  | Ok true => true
  | _ => false
  end.

(** Loading the entry raises neither in the test of line 76 nor, when the
    test passes, in the constructor call of line 77. *)
Definition loadable (entry : string * json) : bool :=
  well_shaped entry && (negb (accepted entry) || constructible (snd entry)).

(** The invariant in the words of the specification: every reference has
    channel id "msteams" and a conversation with a non-empty id. *)
Definition store_inv_by_channel (d : dict ConversationReference) : Prop :=
  forall key r,
    In (key, r) d ->
    ref_channel_id r = JStr "msteams" /\ conversation_id_ok r = true.

(** A check that a list of keys has no repetition. *)
Fixpoint distinct (l : list string) : bool :=
  match l with
  | [] => true
  | k :: rest => negb (existsb (String.eqb k) rest) && distinct rest
  end.

(** ** Sample data *)

Definition sample_teams_entry (conversation service_url : string) : json :=
  JObj [("activity_id", JStr "1");
        ("user", JObj [("id", JStr "u1")]);
        ("bot", JObj [("id", JStr "bot")]);
        ("conversation", JObj [("id", JStr conversation)]);
        ("channel_id", JStr "msteams");
        ("service_url", JStr service_url)].

(** A file with a Teams entry, a web chat entry and a Teams entry whose
    conversation id is empty. *)
Definition sample_members : list (string * json) :=
  [("msteams:a", sample_teams_entry "a" "https://smba.example/amer");
   ("webchat:b", JObj [("conversation", JObj [("id", JStr "b")]);
                       ("channel_id", JStr "webchat")]);
   ("msteams:c", JObj [("conversation", JObj [("id", JStr "")]);
                       ("channel_id", JStr "msteams")])].

(** A process that starts on a given file. *)
Definition fresh_process (f : File) : World := mkWorld [] f [].

(** A file with a Teams entry and, under a second Teams key, a string. *)
Definition malformed_members : list (string * json) :=
  [("msteams:a", sample_teams_entry "a" "https://smba.example/amer");
   ("msteams:b", JStr "oops")].

(** A file whose one entry has a Teams key and another channel id. *)
Definition relabelled_members : list (string * json) :=
  [("msteams:a", JObj [("conversation", JObj [("id", JStr "a")]);
                       ("channel_id", JStr "webchat")])].

Definition sample_bot : Account := mkAccount (Some "28:bot") [].
Definition sample_user : Account :=
  mkAccount (Some "29:alice") [("name", JStr "Alice")].

Definition sample_conversation (cid : string) : Account :=
  mkAccount (Some cid) [("conversation_type", JStr "personal")].

(** A Teams message in conversation [cid]. *)
Definition sample_message (cid : string) : Activity :=
  mkActivity (Some "message") (Some "1700000000001") (Some "msteams")
             (Some "https://smba.example/amer")
             (Some (sample_conversation cid))
             (Some sample_user) (Some sample_bot) (Some "hello") None.


(** The same change on an activity that names no recipient. *)
Definition sample_update_no_recipient : Activity :=
  mkActivity (Some "conversationUpdate") (Some "1700000000003")
             (Some "msteams") (Some "https://smba.example/amer")
             (Some (sample_conversation "a"))
             (Some sample_user) None None
             (Some [sample_user]).

(** An environment in which every outside call succeeds. *)
Definition sample_env : Env :=
  mkEnv (fun text => Ok ("You said: " ++ str_opt text)%string)
        (fun _ => Ok tt)
        (fun _ _ => Ok tt)
        (fun _ => Ok (sample_message "a"))
        (fun _ _ => Ok tt)
        (Ok tt)
        (fun _ => Complete).

(** An environment whose router raises [e]. *)
Definition router_raises (e : Exn) : Env :=
  mkEnv (fun _ => Raise e)
        (fun _ => Ok tt)
        (fun _ _ => Ok tt)
        (fun _ => Ok (sample_message "b"))
        (fun _ _ => Ok tt)
        (Ok tt)
        (fun _ => Complete).

(** The world of a process restarted on a file that holds one reference. *)
Definition restarted : World :=
  fst (load_conversation_references
         (fresh_process
            (Content (Ok (JObj [("msteams:a",
                                 sample_teams_entry
                                   "a" "https://smba.example/amer")]))))).

(** A request whose body is well-formed JSON. *)
Definition sample_request : Request :=
  mkRequest (Some (JObj [("type", JStr "message");
                         ("channelId", JStr "msteams");
                         ("text", JStr "hello")]))
            (Some "Bearer token").

(** What [messages] answers to an exception raised inside its [try]. *)
Definition answer_to (e : Exn) : HttpResponse :=
  if is_ValueError e
  then HTTPException 400 "Invalid JSON in request body"
  else HTTPException 500 (exn_str e).

(** Every reference of the store was built by the dispatcher. *)
Definition built_store (d : dict ConversationReference) : bool :=
  forallb (fun entry => is_built (snd entry)) d.


(** The members [save_conversation_references] writes for a store built by
    the dispatcher, and the store [load_conversation_references] makes of
    them. *)
Definition written (d : dict ConversationReference) : list (string * json) :=
  map (fun entry => (fst entry, JObj (six_fields (snd entry)))) d.

Definition reloaded (d : dict ConversationReference)
  : dict ConversationReference :=
  map (fun entry => (fst entry, Loaded (six_fields (snd entry)))) d.

(** A store of three references built by the dispatcher, the second one
    without a conversation. *)
Definition sample_store : dict ConversationReference :=
  [("msteams:a", fresh_reference (sample_message "a"));
   ("msteams:x", Built (Some "7") (Some sample_user) (Some sample_bot) None
                       (Some "msteams") (Some "https://smba.example/amer"));
   ("msteams:c", fresh_reference (sample_message "c"))].

(** An activity without a conversation. *)
Definition sample_stray : Activity :=
  mkActivity (Some "message") (Some "9") (Some "msteams")
             (Some "https://smba.example/amer")
             None (Some sample_user) (Some sample_bot) (Some "hello") None.

(** A file whose one entry passes the test of line 76 and has a member
    named "self". *)
Definition self_members : list (string * json) :=
  [("msteams:a", JObj [("conversation", JObj [("id", JStr "a")]);
                       ("self", JNum 1)])].

(** An environment in which the file cannot be opened for writing. *)
Definition read_only_env : Env :=
  mkEnv (fun text => Ok ("You said: " ++ str_opt text)%string)
        (fun _ => Ok tt)
        (fun _ _ => Ok tt)
        (fun _ => Ok (sample_message "a"))
        (fun _ _ => Ok tt)
        (Raise (mkExn (OtherError "PermissionError")
                      "[Errno 13] Permission denied: 'conversation_references.json'"))
        (fun _ => Complete).

(** An environment in which the dump breaks off and leaves a file that does
    not parse. *)
Definition disk_full_env : Env :=
  mkEnv (fun text => Ok ("You said: " ++ str_opt text)%string)
        (fun _ => Ok tt)
        (fun _ _ => Ok tt)
        (fun _ => Ok (sample_message "a"))
        (fun _ _ => Ok tt)
        (Ok tt)
        (fun _ =>
           Broken (mkExn (OtherError "OSError")
                         "[Errno 28] No space left on device")
                  (Raise (mkExn JSONDecodeError
                                "Expecting property name enclosed in double quotes: line 2 column 3 (char 4)"))).

(** ** Reading what an operation did *)

(** The event opens or writes the backing file. *)
Definition touches_file (ev : Event) : bool :=
  match ev with
  | OpenWrite | Dump _ => true
  | _ => false
  end.

(** What a broadcast over [items] may do: print, and hand the transport a
    stored reference together with the card built from it. *)
Definition broadcast_event (items : dict ConversationReference) (ev : Event)
  : Prop :=
  match ev with
  | Print _ => True
  | Continue r a => In r (map snd items) /\ a = card_activity r
  | _ => False
  end.


(** * Lemmas *)

Unset Implicit Arguments.

#[local] Arguments String.append : simpl never.
#[local] Arguments str_nat : simpl never.

(** ** Strings *)

Lemma prefix_append s t : String.prefix s (s ++ t) = true.
Proof.
  induction s as [|c s IH]; [destruct t; reflexivity|].
  change (String.prefix (String c s) (String c (s ++ t)) = true).
  cbn [String.prefix]. destruct (ascii_dec c c); [exact IH|congruence].
Qed.

(** ** Dictionaries *)

Lemma distinct_NoDup l : distinct l = true -> NoDup l.
Proof.
  induction l as [|k rest IH]; cbn [distinct]; [constructor|].
  rewrite andb_true_iff, negb_true_iff. intros [N D].
  constructor; auto. intros I.
  assert (E : existsb (String.eqb k) rest = true).
  { apply existsb_exists. exists k. split; auto. apply String.eqb_refl. }
  congruence.
Qed.

Lemma dict_get_set_same {V} (d : dict V) k v :
  dict_get (dict_set d k v) k = Some v.
Proof.
  induction d as [|[k' v'] d IH]; simpl.
  - now rewrite String.eqb_refl.
  - destruct (String.eqb k k') eqn:E; simpl; rewrite E; auto.
Qed.


Lemma dict_get_In {V} (d : dict V) k v :
  dict_get d k = Some v -> In (k, v) d.
Proof.
  induction d as [|[k' v'] d IH]; simpl; [discriminate|].
  destruct (String.eqb k k') eqn:E.
  - apply String.eqb_eq in E. intros [= ->]. subst. now left.
  - intros H. right. auto.
Qed.

Lemma dict_get_None {V} (d : dict V) k :
  dict_get d k = None <-> ~ In k (keys d).
Proof.
  induction d as [|[k' v'] d IH]; simpl.
  - tauto.
  - destruct (String.eqb k k') eqn:E.
    + apply String.eqb_eq in E. subst. split; [discriminate|].
      intros H. exfalso. apply H. now left.
    + apply String.eqb_neq in E. rewrite IH. split.
      * intros H [H1|H1]; [congruence|auto].
      * intros H H1. apply H. now right.
Qed.

Lemma In_dict_get {V} (d : dict V) k v :
  dict_wf d -> In (k, v) d -> dict_get d k = Some v.
Proof.
  unfold dict_wf. induction d as [|[k' v'] d IH]; simpl; [tauto|].
  intros W [H|H].
  - inversion H; subst. now rewrite String.eqb_refl.
  - inversion W as [|? ? N W']; subst.
    destruct (String.eqb k k') eqn:E.
    + apply String.eqb_eq in E. subst. exfalso. apply N.
      change k' with (fst (k', v)). now apply in_map.
    + auto.
Qed.

Lemma In_dict_set {V} (d : dict V) k v k' v' :
  In (k', v') (dict_set d k v) -> (k' = k /\ v' = v) \/ In (k', v') d.
Proof.
  induction d as [|[k0 v0] d IH]; simpl.
  - intros [H|[]]. inversion H. auto.
  - destruct (String.eqb k k0) eqn:E; simpl.
    + apply String.eqb_eq in E. subst.
      intros [H|H]; [inversion H; auto|auto].
    + intros [H|H]; [auto|]. destruct (IH H); auto.
Qed.

Lemma keys_dict_set {V} (d : dict V) k v :
  keys (dict_set d k v) = if dict_has d k then keys d else keys d ++ [k].
Proof.
  unfold dict_has. induction d as [|[k0 v0] d IH]; simpl; auto.
  destruct (String.eqb k k0) eqn:E; simpl; auto.
  rewrite IH. now destruct (dict_get d k).
Qed.

Lemma dict_has_In {V} (d : dict V) k :
  dict_has d k = true <-> In k (keys d).
Proof.
  unfold dict_has. destruct (dict_get d k) eqn:E.
  - split; auto. intros _. apply dict_get_In in E.
    change k with (fst (k, v)). now apply in_map.
  - split; [discriminate|]. intros H. now apply dict_get_None in E.
Qed.

Lemma dict_wf_set {V} (d : dict V) k v :
  dict_wf d -> dict_wf (dict_set d k v).
Proof.
  unfold dict_wf. rewrite keys_dict_set.
  destruct (dict_has d k) eqn:E; auto.
  intros W. apply NoDup_app; [assumption|constructor; [intros []|constructor]|].
  intros x Hx [<-|[]].
  apply dict_has_In in Hx. congruence.
Qed.


(** ** Worlds *)

Lemma log_nil w : log w [] = w.
Proof. destruct w. unfold log. simpl. now rewrite app_nil_r. Qed.

Lemma log_log w a b : log (log w a) b = log w (a ++ b).
Proof. unfold log. simpl. now rewrite app_assoc. Qed.

Lemma emit_eval ev w : emit ev w = (log w [ev], Ok tt).
Proof. reflexivity. Qed.

(** ** [save_conversation_references], in one step *)

Lemma save_eval env w :
  save_conversation_references env w =
  match open_write env with
  | Raise e =>
      (mkWorld (refs w) (file w)
               (trace w ++ [OpenWrite;
                            Print ("Error saving conversation references: "
                                   ++ exn_str e)]),
       Ok tt)
  | Ok _ =>
      match serialize_all (refs w) with
      | Raise e =>
          (mkWorld (refs w) empty_file
                   (trace w ++ [OpenWrite;
                                Print ("Error saving conversation references: "
                                       ++ exn_str e)]),
           Ok tt)
      | Ok data =>
          match dump env (JObj data) with
          | Complete =>
              (mkWorld (refs w) (Content (Ok (JObj data)))
                       (trace w
                        ++ [OpenWrite; Dump (JObj data);
                            Print ("Saved " ++ str_nat (List.length (refs w))
                                   ++ " conversation references")]),
               Ok tt)
          | Broken e remains =>
              (mkWorld (refs w) (Content remains)
                       (trace w
                        ++ [OpenWrite; Dump (JObj data);
                            Print ("Error saving conversation references: "
                                   ++ exn_str e)]),
               Ok tt)
          end
      end
  end.
Proof.
  unfold save_conversation_references, try_except, bind, emit, set_file,
    get_refs, lift, print, emit, write_out. simpl.
  destruct (open_write env) as [u|e]; simpl; [|now rewrite <- !app_assoc].
  destruct (serialize_all (refs w)) as [data|e]; simpl;
    [|now rewrite <- !app_assoc].
  destruct (dump env (JObj data)) as [|e remains]; simpl;
    unfold bind, set_file, raise; simpl; now rewrite <- !app_assoc.
Qed.

Lemma save_returns env w : snd (save_conversation_references env w) = Ok tt.
Proof.
  rewrite save_eval. destruct (open_write env); auto.
  destruct (serialize_all (refs w)) as [data|e]; auto.
  now destruct (dump env (JObj data)).
Qed.

Lemma save_refs env w :
  refs (fst (save_conversation_references env w)) = refs w.
Proof.
  rewrite save_eval. destruct (open_write env); auto.
  destruct (serialize_all (refs w)) as [data|e]; auto.
  now destruct (dump env (JObj data)).
Qed.

(** ** [load_conversation_references], in one step *)

Lemma load_loop_eval items : forall valid_refs w,
  load_loop items valid_refs w =
  (log w (load_lines items), load_result items valid_refs).
Proof.
  induction items as [|[key val] rest IH]; intros valid_refs w;
    cbn [load_loop load_lines load_result].
  - unfold ret. now rewrite log_nil.
  - unfold bind at 1. unfold lift at 1.
    destruct (accepts key val) as [[|]|e].
    + unfold bind, lift. destruct (reference_of val) as [r|e].
      * apply IH.
      * now rewrite log_nil.
    + unfold bind, print. rewrite emit_eval, IH, log_log. reflexivity.
    + now rewrite log_nil.
Qed.

Lemma load_eval w :
  load_conversation_references w =
  match file w with
  | NoFile => (w, Ok tt)
  | Content (Raise e) =>
      (log w [Print ("Error loading conversation references: " ++ exn_str e)],
       Ok tt)
  | Content (Ok data) =>
      match json_items data with
      | Raise e =>
          (log w [Print ("Error loading conversation references: "
                         ++ exn_str e)],
           Ok tt)
      | Ok items =>
          match load_result items [] with
          | Raise e =>
              (log w (load_lines items
                      ++ [Print ("Error loading conversation references: "
                                 ++ exn_str e)]),
               Ok tt)
          | Ok valid_refs =>
              (mkWorld valid_refs (file w)
                       (trace w ++ load_lines items
                        ++ [Print ("Loaded " ++ str_nat (List.length valid_refs)
                                   ++ " valid conversation references")]),
               Ok tt)
          end
      end
  end.
Proof.
  unfold load_conversation_references, try_except, bind, get_file, lift.
  destruct (file w) as [|[data|e]] eqn:F; simpl; auto.
  destruct (json_items data) as [items|e]; simpl; auto.
  rewrite load_loop_eval.
  destruct (load_result items []) as [valid_refs|e]; simpl.
  - unfold log. simpl. now rewrite F, <- app_assoc.
  - unfold print. now rewrite emit_eval, log_log.
Qed.

Lemma load_returns w : snd (load_conversation_references w) = Ok tt.
Proof.
  rewrite load_eval. destruct (file w) as [|[data|e]]; auto.
  destruct (json_items data) as [items|e]; auto.
  now destruct (load_result items []).
Qed.

(** ** [on_turn], step by step *)

Lemma on_turn_unidentified env a :
  identified a = false -> on_turn env a = print (skip_line a).
Proof.
  unfold identified, on_turn. destruct (act_conversation a) as [conv|]; auto.
  now intros ->.
Qed.

Lemma on_turn_steps env a :
  identified a = true ->
  on_turn env a = (store_step env a (conversation_key_of a) ;; reply_step env a).
Proof.
  unfold identified, on_turn, conversation_key_of.
  destruct (act_conversation a) as [conv|]; [|discriminate].
  now intros ->.
Qed.

Lemma store_step_eval env a key w :
  store_step env a key w =
  if opt_str_eqb (act_channel_id a) (Some "msteams")
     && stale (refs w) key (act_service_url a)
  then
    save_conversation_references env
      (mkWorld (dict_set (refs w) key (fresh_reference a)) (file w)
               (trace w ++ [Print ("Stored/Updated conversation reference for "
                                   ++ key)]))
  else (w, Ok tt).
Proof.
  unfold store_step.
  destruct (opt_str_eqb (act_channel_id a) (Some "msteams")); auto.
  unfold bind at 1. unfold get_refs.
  destruct (stale (refs w) key (act_service_url a)); auto.
Qed.

Lemma store_step_returns env a key w : snd (store_step env a key w) = Ok tt.
Proof.
  rewrite store_step_eval.
  destruct (_ && _); auto using save_returns.
Qed.

Lemma greet_loop_eval env bot members w :
  greet_loop env (Some bot) members w =
  if existsb (is_stranger bot) members
  then (log w [Send greeting], send_activity env greeting)
  else (w, Ok tt).
Proof.
  induction members as [|m ms IH]; cbn [greet_loop existsb]; auto.
  unfold is_stranger at 1.
  destruct (negb (opt_str_eqb (id m) (id bot))); cbn [orb]; auto.
Qed.

Lemma greet_loop_no_recipient env m ms w :
  greet_loop env None (m :: ms) w = (w, Raise (no_attribute "NoneType" "id")).
Proof. reflexivity. Qed.


(** The second half of a turn touches neither the store nor the file. *)
Lemma reply_step_frame env a w :
  exists tl, fst (reply_step env a w) = log w tl.
Proof.
  unfold reply_step.
  destruct (opt_str_eqb (act_type a) (Some ActivityTypes_message)) eqn:T.
  - unfold bind at 1. rewrite emit_eval. unfold bind at 1. unfold lift at 1.
    destruct (supervisor_run env (act_text a)) as [c|e].
    + exists [RouterRun (act_text a); Send c].
      unfold bind. rewrite emit_eval, log_log. reflexivity.
    + exists [RouterRun (act_text a)]. reflexivity.
  - destruct (opt_str_eqb (act_type a) (Some ActivityTypes_conversation_update)).
    + destruct (act_members_added a) as [[|m ms]|];
        try (exists []; now rewrite log_nil).
      destruct (act_recipient a) as [bot|].
      * rewrite greet_loop_eval.
        destruct (existsb (is_stranger bot) (m :: ms)).
        -- now exists [Send greeting].
        -- exists []. now rewrite log_nil.
      * exists []. rewrite greet_loop_no_recipient. now rewrite log_nil.
    + exists []. now rewrite log_nil.
Qed.

(** A turn, in one step: the world after the first half, then the second. *)
Lemma on_turn_eval env a w :
  identified a = true ->
  on_turn env a w =
  reply_step env a (fst (store_step env a (conversation_key_of a) w)).
Proof.
  intros I. rewrite on_turn_steps by assumption. unfold bind.
  pose proof (store_step_returns env a (conversation_key_of a) w) as R.
  destruct (store_step env a (conversation_key_of a) w) as [w' r].
  simpl in *. now subst r.
Qed.

Lemma on_turn_world env a w :
  exists tl,
    fst (on_turn env a w) =
    if tracks (refs w) a
    then
      log (fst (save_conversation_references env
                  (mkWorld (dict_set (refs w) (conversation_key_of a)
                                     (fresh_reference a))
                           (file w)
                           (trace w
                            ++ [Print ("Stored/Updated conversation reference for "
                                       ++ conversation_key_of a)]))))
          tl
    else log w tl.
Proof.
  unfold tracks. destruct (identified a) eqn:I; cbn [andb].
  - rewrite on_turn_eval by assumption.
    destruct (reply_step_frame env a
                (fst (store_step env a (conversation_key_of a) w))) as [tl E].
    exists tl. rewrite E, store_step_eval.
    now destruct (_ && _).
  - rewrite on_turn_unidentified by assumption.
    exists [Print (skip_line a)]. reflexivity.
Qed.



Lemma identified_spec a :
  identified a = true <->
  exists conv cid,
    act_conversation a = Some conv /\ id conv = Some cid /\ cid <> "".
Proof.
  unfold identified. destruct (act_conversation a) as [conv|].
  - destruct (id conv) as [cid|] eqn:E; simpl.
    + rewrite negb_true_iff, String.eqb_neq. split.
      * intros H. exists conv, cid. auto.
      * intros [c [i [[= <-] [H1 H2]]]]. congruence.
    + split; [discriminate|]. intros [c [i [[= <-] [H1 H2]]]]. congruence.
  - split; [discriminate|]. intros [c [i [H _]]]. discriminate.
Qed.

Lemma opt_str_eqb_spec a b : opt_str_eqb a b = true <-> a = b.
Proof.
  destruct a, b; simpl; split; try congruence.
  - intros H. apply String.eqb_eq in H. congruence.
  - intros [= ->]. apply String.eqb_refl.
Qed.


Lemma save_file env w :
  file (fst (save_conversation_references env w))
  = file_after_save env (file w) (refs w).
Proof.
  rewrite save_eval. unfold file_after_save.
  destruct (open_write env); auto.
  destruct (serialize_all (refs w)) as [data|e]; auto.
  now destruct (dump env (JObj data)).
Qed.

Lemma file_after_save_writable env f d :
  writable env -> file_after_save env f d = saved_file d.
Proof.
  intros [O D]. unfold file_after_save, saved_file. rewrite O.
  destruct (serialize_all d) as [data|e]; auto. now rewrite D.
Qed.


(** ** The filter of [load_conversation_references] *)




Lemma reference_of_stored val r :
  reference_of val = Ok r -> r = stored_as val.
Proof.
  destruct val as [| | | | |members]; try discriminate.
  cbn [reference_of stored_as]. destruct (dict_has members "self");
    [discriminate|]. now intros [= <-].
Qed.









Lemma accepted_ok key val :
  accepted (key, val) = true ->
  String.prefix "msteams:" key = true /\
  conversation_id_ok (stored_as val) = true.
Proof.
  unfold accepted, accepts. cbn [fst snd].
  destruct (String.prefix "msteams:" key); [|discriminate].
  destruct val as [| | | | |members]; try discriminate.
  cbn [stored_as conversation_id_ok].
  destruct (json_get members "conversation") as [| | | | |cm]; simpl;
    try discriminate;
    repeat match goal with
           | |- context [if ?c then _ else _] => destruct c; simpl
           end; try discriminate; auto.
Qed.

Lemma load_result_inv items : forall acc d,
  load_result items acc = Ok d -> store_inv acc -> store_inv d.
Proof.
  induction items as [|[key val] rest IH]; intros acc d; cbn [load_result].
  - now intros [= <-].
  - destruct (accepts key val) as [[|]|e] eqn:A; try discriminate; eauto.
    destruct (reference_of val) as [r|e] eqn:Rf; [|discriminate].
    apply reference_of_stored in Rf. subst r.
    intros L Inv. apply (IH _ _ L).
    intros k r H. apply In_dict_set in H. destruct H as [[-> ->]|H]; auto.
    apply accepted_ok. unfold accepted. cbn [fst snd]. now rewrite A.
Qed.

Lemma load_refs w :
  refs (fst (load_conversation_references w)) =
  match file w with
  | Content (Ok (JObj items)) =>
      match load_result items [] with
      | Ok valid_refs => valid_refs
      | Raise _ => refs w
      end
  | _ => refs w
  end.
Proof.
  rewrite load_eval. destruct (file w) as [|[data|e]]; auto.
  destruct data; auto. cbn [json_items].
  now destruct (load_result members []).
Qed.

Lemma on_turn_refs env a w :
  refs (fst (on_turn env a w)) =
  if tracks (refs w) a
  then dict_set (refs w) (conversation_key_of a) (fresh_reference a)
  else refs w.
Proof.
  destruct (on_turn_world env a w) as [tl E]. rewrite E.
  destruct (tracks (refs w) a); unfold log; cbn [refs]; auto using save_refs.
Qed.

Lemma tracks_key d a :
  tracks d a = true ->
  String.prefix "msteams:" (conversation_key_of a) = true /\
  conversation_id_ok (fresh_reference a) = true /\
  ref_channel_id (fresh_reference a) = JStr "msteams".
Proof.
  unfold tracks. rewrite !andb_true_iff, opt_str_eqb_spec.
  intros [[I Ch] _]. unfold conversation_key_of, fresh_reference.
  cbn [conversation_id_ok ref_channel_id]. rewrite Ch.
  unfold identified in I. destruct (act_conversation a) as [conv|];
    [|discriminate].
  split; [|split; [exact I|reflexivity]].
  exact (prefix_append "msteams:" (str_opt (id conv))).
Qed.

(** ** Traces *)



(** The first half of a turn neither runs the router nor sends a reply. *)
Lemma store_step_trace env a key w :
  exists tl,
    trace (fst (store_step env a key w)) = trace w ++ tl /\
    router_calls tl = [] /\ sends tl = [].
Proof.
  rewrite store_step_eval. destruct (_ && _).
  - rewrite save_eval. cbn [refs trace].
    destruct (open_write env);
      [destruct (serialize_all _) as [data|e];
       [destruct (dump env (JObj data))|]|];
      cbn [fst trace]; rewrite <- app_assoc;
      eexists; split; try reflexivity; split; reflexivity.
  - exists []. cbn [fst]. now rewrite app_nil_r.
Qed.


Lemma identified_intro a conv cid :
  act_conversation a = Some conv -> id conv = Some cid -> cid <> "" ->
  identified a = true.
Proof. intros C I N. apply identified_spec. eauto. Qed.


Lemma reply_step_update_no_recipient env a w m ms :
  act_type a = Some "conversationUpdate" ->
  act_members_added a = Some (m :: ms) ->
  act_recipient a = None ->
  reply_step env a w = (w, Raise (no_attribute "NoneType" "id")).
Proof.
  intros T M R. unfold reply_step. rewrite T, M, R.
  cbn [opt_str_eqb]. unfold ActivityTypes_message,
    ActivityTypes_conversation_update.
  replace (String.eqb "conversationUpdate" "message") with false
    by reflexivity.
  rewrite String.eqb_refl. reflexivity.
Qed.


(** ** The broadcaster on references built by the dispatcher *)


Lemma missing_conversation_built r :
  is_built r = true ->
  missing_conversation r = Ok (negb (conversation_id_ok r)).
Proof.
  destruct r as [a u b [c|] ch s|val]; try discriminate; reflexivity.
Qed.



Lemma missing_conversation_loaded val :
  conversation_id_ok (Loaded val) = true ->
  missing_conversation (Loaded val) = Raise (no_attribute "dict" "id").
Proof.
  unfold missing_conversation. cbn [conversation_id_ok ref_conversation].
  destruct (json_get val "conversation") as [| | | | |cm]; try discriminate.
  destruct cm; [discriminate|reflexivity].
Qed.

Lemma send_loop_loaded env items : forall results w,
  store_inv items -> built_store items = false ->
  exists tl,
    send_loop env items results w
    = (log w tl, Raise (no_attribute "dict" "id")).
Proof.
  unfold built_store.
  induction items as [|[key r] rest IH]; intros results w Inv;
    cbn [forallb send_loop snd]; [discriminate|].
  assert (Ok_r : conversation_id_ok r = true)
    by (apply (Inv key r); now left).
  assert (Inv' : store_inv rest)
    by (intros k x H; apply (Inv k x); now right).
  unfold bind at 1. unfold lift at 1.
  destruct (is_built r) eqn:B; cbn [andb].
  - intros R. rewrite (missing_conversation_built r B), Ok_r. cbn [negb].
    unfold bind at 1. unfold print at 1. rewrite emit_eval.
    unfold bind at 1. unfold try_except, bind, lift, print.
    rewrite !emit_eval.
    destruct (continue_conversation env r (card_activity r)) as [[]|e];
      cbv beta iota delta [ret]; rewrite ?emit_eval, ?log_log;
      match goal with
      | |- context [send_loop env rest ?rs ?w'] =>
          destruct (IH rs w' Inv' R) as [tl E]; rewrite E
      end;
      rewrite log_log; eauto.
  - intros _. destruct r as [? ? ? ? ? ?|val]; [discriminate|].
    rewrite (missing_conversation_loaded val Ok_r).
    exists []. now rewrite log_nil.
Qed.

(** ** Saving and loading references built by the dispatcher *)

Lemma serialize_ref_built r :
  is_built r = true -> serialize_ref r = Ok (JObj (six_fields r)).
Proof.
  destruct r as [a [u|] [b|] [c|] ch s|val]; try discriminate; reflexivity.
Qed.

Lemma serialize_all_built d :
  built_store d = true -> serialize_all d = Ok (written d).
Proof.
  unfold built_store, written.
  induction d as [|[key r] rest IH]; cbn [forallb serialize_all map snd fst];
    auto.
  rewrite andb_true_iff. intros [B R].
  now rewrite (serialize_ref_built r B), (IH R).
Qed.

Lemma accepts_written key r :
  is_built r = true ->
  String.prefix "msteams:" key = true -> conversation_id_ok r = true ->
  accepts key (JObj (six_fields r)) = Ok true.
Proof.
  intros B P C. unfold accepts. rewrite P.
  destruct r as [a u b [c|] ch s|val]; try discriminate.
  cbn [conversation_id_ok] in C.
  change (json_get (six_fields (Built a u b (Some c) ch s)) "conversation")
    with (JObj (as_dict c)).
  unfold as_dict. destruct (id c) as [i|]; [|discriminate].
  cbn [truthy]. change (json_get (("id", JStr i) :: others c) "id")
    with (JStr i).
  cbn [of_opt_str] in C. now rewrite C.
Qed.

Lemma dict_set_fresh {V} (d : dict V) k v :
  ~ In k (keys d) -> dict_set d k v = d ++ [(k, v)].
Proof.
  induction d as [|[k' v'] d IH]; cbn [dict_set keys map fst app In]; auto.
  intros N. destruct (String.eqb k k') eqn:E.
  - apply String.eqb_eq in E. subst. exfalso. auto.
  - rewrite IH; auto.
Qed.

Lemma load_result_written items : forall acc,
  built_store items = true -> store_inv items ->
  NoDup (keys acc ++ keys items) ->
  load_result (written items) acc = Ok (acc ++ reloaded items).
Proof.
  unfold built_store, written, reloaded.
  induction items as [|[key r] rest IH]; intros acc;
    cbn [forallb map load_result fst snd keys].
  - intros _ _ _. now rewrite app_nil_r.
  - rewrite andb_true_iff. intros [B R] Inv N.
    destruct (Inv key r (or_introl eq_refl)) as [P C].
    rewrite (accepts_written key r B P C).
    change (reference_of (JObj (six_fields r)))
      with (Ok (Loaded (six_fields r))).
    cbv beta iota. rewrite dict_set_fresh.
    + rewrite IH; auto.
      * now rewrite <- app_assoc.
      * intros k x H. apply (Inv k x). now right.
      * unfold keys in *. rewrite map_app, <- app_assoc. exact N.
    + apply NoDup_remove_2 in N. intros H. apply N. apply in_or_app. now left.
Qed.

Lemma six_fields_reloaded r : six_fields (Loaded (six_fields r)) = six_fields r.
Proof. reflexivity. Qed.


(** ** [messages], in one step *)

Lemma messages_eval env request w :
  messages env request w =
  match body request with
  | None => (w, Ok (HTTPException 400 "Invalid JSON in request body"))
  | Some j =>
      match deserialize env j with
      | Raise e => (w, Ok (answer_to e))
      | Ok activity =>
          match authenticate env activity (auth_header_of request) with
          | Raise e => (w, Ok (answer_to e))
          | Ok _ =>
              match snd (on_turn env activity w) with
              | Ok _ =>
                  (fst (on_turn env activity w),
                   Ok (mkHttpResponse 200 (JObj [])))
              | Raise e => (fst (on_turn env activity w), Ok (answer_to e))
              end
          end
      end
  end.
Proof.
  unfold messages, try_except, bind, lift, request_json, process_activity,
    answer_to, ret.
  destruct (body request) as [j|]; [|reflexivity].
  destruct (deserialize env j) as [activity|e];
    [|now destruct (is_ValueError e)].
  unfold bind, lift.
  destruct (authenticate env activity (auth_header_of request)) as [u|e];
    [|now destruct (is_ValueError e)].
  destruct (on_turn env activity w) as [w' [u'|e]]; cbn [fst snd]; auto.
  now destruct (is_ValueError e).
Qed.

(** ** The sample store after a restart *)

Lemma sample_env_writable : writable sample_env.
Proof. split; reflexivity. Qed.

Lemma restarted_store_inv : store_inv (refs restarted).
Proof.
  intros key r [H|[]]. inversion H. subst. split; reflexivity.
Qed.

(** ** Checks on the sample data *)

Example load_sample_file :
  let w := fst (load_conversation_references
                  (fresh_process (Content (Ok (JObj sample_members))))) in
  keys (refs w) = ["msteams:a"] /\
  trace w = [Print "Skipping invalid or non-Teams reference webchat:b";
             Print "Skipping invalid or non-Teams reference msteams:c";
             Print "Loaded 1 valid conversation references"].
Proof. split; reflexivity. Qed.

Example load_malformed_file :
  let w := fst (load_conversation_references
                  (fresh_process (Content (Ok (JObj malformed_members))))) in
  refs w = [] /\
  trace w = [Print "Error loading conversation references: 'str' object has no attribute 'get'"].
Proof. split; reflexivity. Qed.

Example broadcast_sample_store :
  snd (send_adaptive_card sample_env (mkWorld sample_store NoFile []))
  = Ok (mkBroadcastResult
          "completed" None
          (Some [mkSendResult "msteams:a" "success" None;
                 mkSendResult "msteams:x" "error"
                              (Some "Invalid conversation.id");
                 mkSendResult "msteams:c" "success" None])).
Proof. reflexivity. Qed.

Example broadcast_empty_store :
  send_adaptive_card sample_env (fresh_process NoFile)
  = (mkWorld [] NoFile [Print "No conversation references available."],
     Ok (mkBroadcastResult
           "error"
           (Some "No conversation references available. Interact with the bot first.")
           None)).
Proof. reflexivity. Qed.

Example stray_activity_is_skipped :
  on_turn sample_env sample_stray (fresh_process NoFile)
  = (mkWorld [] NoFile
             [Print "Skipping invalid activity: channel_id=msteams, no conversation.id"],
     Ok tt).
Proof. reflexivity. Qed.

Example message_turn_on_fresh_process :
  let w := fst (on_turn sample_env (sample_message "a")
                        (fresh_process NoFile)) in
  keys (refs w) = ["msteams:a"] /\
  router_calls (trace w) = [Some "hello"] /\
  sends (trace w) = ["You said: hello"] /\
  file w = Content (Ok (JObj (written (refs w)))).
Proof. repeat split; reflexivity. Qed.

Example load_file_with_self_member :
  let w := fst (load_conversation_references
                  (mkWorld sample_store (Content (Ok (JObj self_members))) []))
  in
  forallb well_shaped self_members = true /\
  forallb loadable self_members = false /\
  refs w = sample_store /\
  trace w = [Print "Error loading conversation references: ConversationReference.__init__() got multiple values for argument 'self'"].
Proof. repeat split; reflexivity. Qed.

Example save_on_read_only_file :
  let w := fst (save_conversation_references
                  read_only_env
                  (mkWorld sample_store (Content (Ok (JObj sample_members))) []))
  in
  file w = Content (Ok (JObj sample_members)) /\
  trace w = [OpenWrite;
             Print "Error saving conversation references: [Errno 13] Permission denied: 'conversation_references.json'"].
Proof. split; reflexivity. Qed.

Example save_on_full_disk :
  let w := fst (save_conversation_references
                  disk_full_env (mkWorld sample_store NoFile []))
  in
  refs w = sample_store /\
  file w = Content (Raise (mkExn JSONDecodeError
                                 "Expecting property name enclosed in double quotes: line 2 column 3 (char 4)")) /\
  In (Print "Error saving conversation references: [Errno 28] No space left on device")
     (trace w).
Proof.
  split; [reflexivity|]. split; [reflexivity|].
  vm_compute. right. right. left. reflexivity.
Qed.

Example turn_on_read_only_file :
  let w := fst (on_turn read_only_env (sample_message "a")
                        (fresh_process (Content (Ok (JObj sample_members)))))
  in
  keys (refs w) = ["msteams:a"] /\
  file w = Content (Ok (JObj sample_members)) /\
  sends (trace w) = ["You said: hello"].
Proof. repeat split; reflexivity. Qed.

(** ** More on loading and saving *)

Lemma load_file w : file (fst (load_conversation_references w)) = file w.
Proof.
  rewrite load_eval. destruct (file w) as [|[data|e]] eqn:F; auto.
  destruct (json_items data) as [items|e]; auto.
  now destruct (load_result items []).
Qed.


Lemma serialize_ref_loaded val :
  conversation_id_ok (Loaded val) = true ->
  exists e, serialize_ref (Loaded val) = Raise e.
Proof.
  unfold serialize_ref. cbn [conversation_id_ok ref_user ref_bot ref_conversation].
  destruct (json_get val "conversation") as [| | | | |cm]; try discriminate.
  destruct cm as [|m cm]; [discriminate|]. intros _.
  destruct (as_dict_or_none (PJson (json_get val "user"))); [|eauto].
  destruct (as_dict_or_none (PJson (json_get val "bot"))); [|eauto].
  cbn [as_dict_or_none truthy]. eauto.
Qed.

Lemma serialize_all_loaded d key val :
  In (key, Loaded val) d -> conversation_id_ok (Loaded val) = true ->
  exists e, serialize_all d = Raise e.
Proof.
  intros I C. induction d as [|[k r] rest IH]; [contradiction|].
  cbn [serialize_all]. destruct I as [I|I].
  - inversion I. subst. destruct (serialize_ref_loaded val C) as [e ->]. eauto.
  - destruct (serialize_ref r); [|eauto].
    destruct (IH I) as [e ->]. eauto.
Qed.

Lemma built_store_false d :
  built_store d = false -> exists key val, In (key, Loaded val) d.
Proof.
  unfold built_store. induction d as [|[k r] rest IH]; cbn [forallb snd];
    [discriminate|].
  destruct r as [? ? ? ? ? ?|val]; cbn [is_built andb].
  - intros H. destruct (IH H) as [key [v I]]. exists key, v. now right.
  - intros _. exists k, val. now left.
Qed.


(** ** What a turn does to the file *)

Lemma reply_step_events env a w :
  exists tl,
    fst (reply_step env a w) = log w tl /\ existsb touches_file tl = false.
Proof.
  unfold reply_step.
  destruct (opt_str_eqb (act_type a) (Some ActivityTypes_message)) eqn:T.
  - unfold bind at 1. rewrite emit_eval. unfold bind at 1. unfold lift at 1.
    destruct (supervisor_run env (act_text a)) as [c|e].
    + exists [RouterRun (act_text a); Send c]. split; [|reflexivity].
      unfold bind. rewrite emit_eval, log_log. reflexivity.
    + exists [RouterRun (act_text a)]. split; reflexivity.
  - destruct (opt_str_eqb (act_type a) (Some ActivityTypes_conversation_update)).
    + destruct (act_members_added a) as [[|m ms]|];
        try (exists []; split; [now rewrite log_nil|reflexivity]).
      destruct (act_recipient a) as [bot|].
      * rewrite greet_loop_eval.
        destruct (existsb (is_stranger bot) (m :: ms)).
        -- exists [Send greeting]. split; reflexivity.
        -- exists []. split; [now rewrite log_nil|reflexivity].
      * exists []. rewrite greet_loop_no_recipient.
        split; [now rewrite log_nil|reflexivity].
    + exists []. split; [now rewrite log_nil|reflexivity].
Qed.

Lemma on_turn_untracked env a w :
  tracks (refs w) a = false ->
  exists tl,
    fst (on_turn env a w) = log w tl /\ existsb touches_file tl = false.
Proof.
  unfold tracks. intros T. destruct (identified a) eqn:I; cbn [andb] in T.
  - rewrite on_turn_eval by assumption. rewrite store_step_eval, T.
    cbn [fst]. apply reply_step_events.
  - rewrite on_turn_unidentified by assumption.
    exists [Print (skip_line a)]. split; reflexivity.
Qed.

Lemma tracks_after_set d a :
  tracks d a = true ->
  tracks (dict_set d (conversation_key_of a) (fresh_reference a)) a = false.
Proof.
  unfold tracks. rewrite !andb_true_iff. intros [[I Ch] _]. rewrite I, Ch.
  cbn [andb]. unfold stale, dict_has. rewrite dict_get_set_same.
  cbn [negb orb]. unfold fresh_reference. cbn [ref_service_url].
  destruct (act_service_url a) as [u|]; cbn [of_opt_str differs]; auto.
  now rewrite String.eqb_refl.
Qed.

(** ** What a broadcast does *)

Lemma broadcast_event_weaken entry items ev :
  broadcast_event items ev -> broadcast_event (entry :: items) ev.
Proof.
  destruct ev; cbn [broadcast_event map In]; auto. intros [I E]. auto.
Qed.

Lemma send_loop_events env items : forall results w,
  exists tl,
    fst (send_loop env items results w) = log w tl /\
    Forall (broadcast_event items) tl /\
    List.length (continues tl) <= List.length items.
Proof.
  induction items as [|[key r] rest IH]; intros results w; cbn [send_loop].
  - exists []. cbn [fst ret]. rewrite log_nil. repeat split; auto.
  - unfold bind at 1. unfold lift at 1.
    destruct (missing_conversation r) as [[|]|e].
    + unfold bind at 1. unfold print at 1. rewrite emit_eval.
      match goal with
      | |- context [send_loop env rest ?rs ?w'] =>
          destruct (IH rs w') as [tl [E [F L]]]; rewrite E
      end.
      rewrite log_log. eexists. split; [reflexivity|]. split.
      * constructor; [exact I|].
        eapply Forall_impl; [|exact F]. apply broadcast_event_weaken.
      * cbn [app continues List.length]. auto.
    + unfold bind at 1. unfold print at 1. rewrite emit_eval.
      unfold bind at 1. unfold try_except, bind, lift, print.
      rewrite !emit_eval.
      destruct (continue_conversation env r (card_activity r)) as [[]|e];
        cbv beta iota delta [ret]; rewrite ?emit_eval, ?log_log;
        match goal with
        | |- context [send_loop env rest ?rs ?w'] =>
            destruct (IH rs w') as [tl [E [F L]]]; rewrite E
        end;
        rewrite log_log; eexists; (split; [reflexivity|]); split;
        try (cbn [app continues List.length]; apply le_n_S; exact L);
        repeat (constructor; [cbn [broadcast_event map snd In]; auto|]);
        (eapply Forall_impl; [|exact F]); apply broadcast_event_weaken.
    + exists []. cbn [fst]. rewrite log_nil. repeat split; auto.
      cbn. apply Nat.le_0_l.
Qed.

Lemma broadcast_events_quiet items tl :
  Forall (broadcast_event items) tl ->
  router_calls tl = [] /\ sends tl = [] /\ existsb touches_file tl = false.
Proof.
  induction 1 as [|ev tl H F IH]; [auto|].
  destruct ev; cbn [broadcast_event] in H; try contradiction;
    cbn [router_calls sends existsb touches_file orb]; exact IH.
Qed.

(** ** The store a process starts with *)

Lemma load_result_wf items : forall acc d,
  load_result items acc = Ok d -> dict_wf acc -> dict_wf d.
Proof.
  induction items as [|[key val] rest IH]; intros acc d; cbn [load_result].
  - now intros [= <-].
  - destruct (accepts key val) as [[|]|e]; try discriminate; eauto.
    destruct (reference_of val) as [r|e]; [|discriminate].
    intros L W. apply (IH _ _ L). now apply dict_wf_set.
Qed.

Lemma reference_of_loaded val r :
  reference_of val = Ok r -> is_built r = false.
Proof.
  intros H. apply reference_of_stored in H. subst r. now destruct val.
Qed.

Lemma load_result_loaded items : forall acc d,
  load_result items acc = Ok d ->
  (forall key r, In (key, r) acc -> is_built r = false) ->
  forall key r, In (key, r) d -> is_built r = false.
Proof.
  induction items as [|[k val] rest IH]; intros acc d; cbn [load_result].
  - intros [= <-]. auto.
  - destruct (accepts k val) as [[|]|e] eqn:A; try discriminate; eauto.
    destruct (reference_of val) as [x|e] eqn:Rf; [|discriminate].
    intros L H. apply (IH _ _ L). intros key r I.
    apply In_dict_set in I. destruct I as [[-> ->]|I]; eauto.
    exact (reference_of_loaded _ _ Rf).
Qed.

(** * The claims *)





(** C4 (amended).  Every entry of the store has a key that starts with
    "msteams:" and a conversation with a non-empty id, and both [load] and a
    turn keep it so; an entry a turn puts into the store has channel id
    "msteams" as well.  ([load] looks at the key of a file entry, not at its
    channel id.) *)
Theorem store_invariant_preserved env a w :
  store_inv (refs w) ->
  store_inv (refs (fst (load_conversation_references w))) /\
  store_inv (refs (fst (on_turn env a w))) /\
  (forall key r,
     In (key, r) (refs (fst (on_turn env a w))) ->
     ~ In (key, r) (refs w) ->
     ref_channel_id r = JStr "msteams").
Proof.
  intros Inv. split; [|split].
  - rewrite load_refs. destruct (file w) as [|[[| | | | |items]|e]]; auto.
    destruct (load_result items []) as [d|e] eqn:L; auto.
    apply (load_result_inv _ _ _ L). intros key r [].
  - rewrite on_turn_refs. destruct (tracks (refs w) a) eqn:T; auto.
    destruct (tracks_key _ _ T) as [P [C _]].
    intros key r I. apply In_dict_set in I.
    destruct I as [[-> ->]|I]; auto.
  - rewrite on_turn_refs. destruct (tracks (refs w) a) eqn:T;
      [|intros; contradiction].
    destruct (tracks_key _ _ T) as [_ [_ Ch]].
    intros key r I N. apply In_dict_set in I.
    destruct I as [[-> ->]|I]; [assumption|contradiction].
Qed.

Lemma store_invariant_preserved_witness :
  store_inv (refs restarted) /\
  store_inv (refs (fst (load_conversation_references restarted))) /\
  store_inv (refs (fst (on_turn sample_env (sample_message "b") restarted))) /\
  keys (refs (fst (on_turn sample_env (sample_message "b") restarted)))
  = ["msteams:a"; "msteams:b"].
Proof.
  split; [exact restarted_store_inv|].
  destruct (store_invariant_preserved sample_env (sample_message "b") restarted
                                      restarted_store_inv)
    as [L [T _]].
  split; [exact L|]. split; [exact T|reflexivity].
Defined.

(** C4 as stated fails: [load] admits an entry stored under a Teams key whose
    channel id is "webchat". *)
Lemma load_admits_other_channel :
  ~ (forall w,
       store_inv_by_channel (refs w) ->
       store_inv_by_channel (refs (fst (load_conversation_references w)))).
Proof.
  intros H.
  specialize (H (fresh_process (Content (Ok (JObj relabelled_members))))).
  assert (E : store_inv_by_channel []) by (intros key r []).
  apply H in E.
  destruct (E "msteams:a"
              (Loaded [("conversation", JObj [("id", JStr "a")]);
                       ("channel_id", JStr "webchat")])
              (or_introl eq_refl)) as [C _].
  vm_compute in C. discriminate C.
Qed.





(** C10.  On a conversation update with a non-empty conversation id and a
    non-empty list of added members, an absent recipient makes the turn
    raise: the dispatcher reads the recipient's id without a guard.  No reply
    is sent and the router is not run. *)
Theorem members_added_without_recipient_raises env a w conv cid m ms :
  act_conversation a = Some conv -> id conv = Some cid -> cid <> "" ->
  act_type a = Some "conversationUpdate" ->
  act_members_added a = Some (m :: ms) ->
  act_recipient a = None ->
  snd (on_turn env a w)
  = Raise (mkExn AttributeError "'NoneType' object has no attribute 'id'") /\
  exists tl,
    trace (fst (on_turn env a w)) = trace w ++ tl /\
    router_calls tl = [] /\ sends tl = [].
Proof.
  intros C I N T M R.
  rewrite on_turn_eval by eauto using identified_intro.
  destruct (store_step_trace env a (conversation_key_of a) w)
    as [tl1 [E1 [R1 S1]]].
  rewrite (reply_step_update_no_recipient env a _ m ms T M R).
  cbn [fst snd]. split; [reflexivity|]. eauto.
Qed.

Lemma members_added_without_recipient_raises_witness :
  snd (on_turn sample_env sample_update_no_recipient (fresh_process NoFile))
  = Raise (mkExn AttributeError "'NoneType' object has no attribute 'id'").
Proof.
  apply (members_added_without_recipient_raises
           sample_env sample_update_no_recipient (fresh_process NoFile)
           (sample_conversation "a") "a" sample_user []
           eq_refl eq_refl ltac:(discriminate) eq_refl eq_refl eq_refl).
Defined.

(** C2, at a store that came from the file.  After a restart on a file with
    one reference the store holds that reference with its conversation as a
    plain dictionary; [save] then raises inside its comprehension
    ([as_dict] on a dictionary), which leaves the file opened for writing and
    empty, and the next process start loads nothing from it. *)
Theorem save_after_restart_empties_file :
  let saved := fst (save_conversation_references sample_env restarted) in
  refs restarted
  = [("msteams:a",
      Loaded [("activity_id", JStr "1");
              ("user", JObj [("id", JStr "u1")]);
              ("bot", JObj [("id", JStr "bot")]);
              ("conversation", JObj [("id", JStr "a")]);
              ("channel_id", JStr "msteams");
              ("service_url", JStr "https://smba.example/amer")])] /\
  store_inv (refs restarted) /\
  file saved = empty_file /\
  In (Print "Error saving conversation references: 'dict' object has no attribute 'as_dict'")
     (trace saved) /\
  refs (fst (load_conversation_references (fresh_process (file saved)))) = [].
Proof.
  cbv zeta. split; [reflexivity|]. split; [exact restarted_store_inv|].
  split; [reflexivity|]. split; [|reflexivity].
  vm_compute. right. right. left. reflexivity.
Qed.

(** C5, at a store that came from the file.  After a restart the stored
    conversation is a plain dictionary, so reading its [id] attribute at line
    172 raises outside the [try]: the broadcast fails outright, with no
    result list and no transport call. *)
Theorem broadcast_after_restart_raises :
  keys (refs restarted) = ["msteams:a"] /\
  store_inv (refs restarted) /\
  send_adaptive_card sample_env restarted
  = (restarted,
     Raise (mkExn AttributeError "'dict' object has no attribute 'id'")).
Proof.
  split; [reflexivity|]. split; [exact restarted_store_inv|reflexivity].
Qed.

(** C8, at a well-formed request whose router raises a [ValueError]: the
    endpoint answers 400 with the fixed text about invalid JSON, not 500 with
    the exception's message. *)
Theorem messages_reports_router_error_as_bad_json :
  body sample_request <> None /\
  snd (on_turn (router_raises (mkExn ValueError "model not found"))
               (sample_message "b") (fresh_process NoFile))
  = Raise (mkExn ValueError "model not found") /\
  snd (messages (router_raises (mkExn ValueError "model not found"))
                sample_request (fresh_process NoFile))
  = Ok (mkHttpResponse 400
          (JObj [("detail", JStr "Invalid JSON in request body")])).
Proof.
  split; [discriminate|]. split; reflexivity.
Qed.

(** C9, at a store that came from the file.  A Teams message from a new
    conversation arrives after a restart and the router raises: the new
    reference is in the store, but the save that preceded the router call
    raised on the reference loaded from the file and left the file empty, so
    the new reference is not in the file. *)
Theorem turn_after_restart_leaves_file_empty :
  let e := mkExn (OtherError "RuntimeError") "router down" in
  let turn := on_turn (router_raises e) (sample_message "b") restarted in
  snd turn = Raise e /\
  dict_get (refs (fst turn)) "msteams:b"
  = Some (fresh_reference (sample_message "b")) /\
  file (fst turn) = empty_file /\
  trace (fst turn)
  = trace restarted
    ++ [Print "Stored/Updated conversation reference for msteams:b";
        OpenWrite;
        Print "Error saving conversation references: 'dict' object has no attribute 'as_dict'";
        RouterRun (Some "hello")].
Proof.
  cbv zeta. repeat split; reflexivity.
Qed.

(** * Further properties *)



(** X2.  The broadcaster on a store that holds a reference admitted by
    [load]:
    the call raises [AttributeError] at the first such reference, whatever
    the transport does. *)
Theorem broadcast_raises_on_loaded_reference env w :
  store_inv (refs w) ->
  built_store (refs w) = false ->
  exists tl,
    send_adaptive_card env w
    = (log w tl,
       Raise (mkExn AttributeError "'dict' object has no attribute 'id'")).
Proof.
  intros Inv B. unfold send_adaptive_card, bind, get_refs.
  destruct (refs w) as [|entry rest] eqn:R; [discriminate|].
  destruct (send_loop_loaded env (entry :: rest) [] w Inv B) as [tl E].
  rewrite E. now exists tl.
Qed.

Lemma broadcast_raises_on_loaded_reference_witness :
  exists tl,
    send_adaptive_card sample_env restarted
    = (log restarted tl,
       Raise (mkExn AttributeError "'dict' object has no attribute 'id'")).
Proof.
  exact (broadcast_raises_on_loaded_reference
           sample_env restarted restarted_store_inv eq_refl).
Defined.

(** X3.  Saving and loading a store built by the dispatcher, when the file
    can be opened and written.  If every reference of the store was built by
    the dispatcher and the store satisfies its invariant, [save] writes one
    member per key holding the six fields, an absent user, bot or
    conversation as [null]; a process that then loads the file, from whatever
    store it had, ends with the same keys in the same order and, under each
    key, the same six fields.  (When the open raises, the file is left as it
    was; see X9.) *)
Theorem save_load_round_trip env d f t w0 :
  writable env ->
  dict_wf d -> built_store d = true -> store_inv d ->
  file w0 = file (fst (save_conversation_references env (mkWorld d f t))) ->
  let w2 := fst (load_conversation_references w0) in
  file w0 = Content (Ok (JObj (written d))) /\
  keys (refs w2) = keys d /\
  (forall key r,
     In (key, r) d ->
     exists r',
       dict_get (refs w2) key = Some r' /\ six_fields r' = six_fields r) /\
  (forall key a u b c ch s,
     In (key, Built a u b c ch s) d ->
     exists fields,
       dict_get (written d) key = Some (JObj fields) /\
       json_get fields "user"
       = match u with Some x => JObj (as_dict x) | None => JNull end /\
       json_get fields "bot"
       = match b with Some x => JObj (as_dict x) | None => JNull end /\
       json_get fields "conversation"
       = match c with Some x => JObj (as_dict x) | None => JNull end).
Proof.
  intros Wr W B Inv F. cbv zeta.
  rewrite save_file, (file_after_save_writable _ _ _ Wr) in F.
  unfold saved_file in F. cbn [refs] in F.
  rewrite (serialize_all_built d B) in F.
  assert (L : load_result (written d) [] = Ok (reloaded d)).
  { apply (load_result_written d [] B Inv). exact W. }
  assert (R : refs (fst (load_conversation_references w0)) = reloaded d).
  { rewrite load_refs, F, L. reflexivity. }
  rewrite R. split; [exact F|]. split; [|split].
  - unfold reloaded, keys. rewrite map_map. reflexivity.
  - intros key r I. exists (Loaded (six_fields r)). split; [|reflexivity].
    apply In_dict_get.
    + unfold dict_wf, reloaded, keys. rewrite map_map. exact W.
    + unfold reloaded.
      change (key, Loaded (six_fields r))
        with ((fun entry : string * ConversationReference =>
                 (fst entry, Loaded (six_fields (snd entry)))) (key, r)).
      now apply in_map.
  - intros key a u b c ch s I.
    exists (six_fields (Built a u b c ch s)). split.
    + apply In_dict_get.
      * unfold dict_wf, written, keys. rewrite map_map. exact W.
      * unfold written.
        change (key, JObj (six_fields (Built a u b c ch s)))
          with ((fun entry : string * ConversationReference =>
                   (fst entry, JObj (six_fields (snd entry))))
                  (key, Built a u b c ch s)).
        now apply in_map.
    + destruct u, b, c; repeat split; reflexivity.
Qed.

Lemma save_load_round_trip_witness :
  let d := refs (fst (on_turn sample_env (sample_message "a")
                              (fresh_process NoFile))) in
  let saved := fst (save_conversation_references sample_env
                                                 (mkWorld d NoFile [])) in
  keys (refs (fst (load_conversation_references (fresh_process (file saved)))))
  = ["msteams:a"].
Proof.
  cbv zeta.
  apply (save_load_round_trip
           sample_env
           (refs (fst (on_turn sample_env (sample_message "a")
                               (fresh_process NoFile))))
           NoFile []
           (fresh_process
              (file (fst (save_conversation_references
                            sample_env
                            (mkWorld
                               (refs (fst (on_turn sample_env
                                                   (sample_message "a")
                                                   (fresh_process NoFile))))
                               NoFile [])))))).
  - exact sample_env_writable.
  - apply distinct_NoDup. reflexivity.
  - reflexivity.
  - intros key r [H|[]]. inversion H. subst. split; reflexivity.
  - reflexivity.
Defined.

(** X4.  The message endpoint never raises.  It answers 400 with the fixed text
    when the body is not JSON and also when deserializing, authenticating or
    the turn raises a [ValueError]; it answers 500 with the exception's text
    when one of them raises anything else; it answers 200 with an empty
    object when the turn returns. *)
Theorem messages_answers env request w :
  (exists response, snd (messages env request w) = Ok response) /\
  (body request = None ->
   messages env request w
   = (w, Ok (mkHttpResponse
               400 (JObj [("detail", JStr "Invalid JSON in request body")])))) /\
  (forall j activity,
     body request = Some j ->
     deserialize env j = Ok activity ->
     authenticate env activity (auth_header_of request) = Ok tt ->
     (snd (on_turn env activity w) = Ok tt ->
      snd (messages env request w) = Ok (mkHttpResponse 200 (JObj []))) /\
     (forall e,
        snd (on_turn env activity w) = Raise e ->
        snd (messages env request w)
        = Ok (if is_ValueError e
              then mkHttpResponse
                     400 (JObj [("detail", JStr "Invalid JSON in request body")])
              else mkHttpResponse 500 (JObj [("detail", JStr (exn_str e))]))) /\
     fst (messages env request w) = fst (on_turn env activity w)).
Proof.
  rewrite messages_eval. split; [|split].
  - destruct (body request) as [j|]; [|cbn [snd]; eauto].
    destruct (deserialize env j) as [activity|e]; [|cbn [snd]; eauto].
    destruct (authenticate env activity (auth_header_of request));
      [|cbn [snd]; eauto].
    destruct (snd (on_turn env activity w)); cbn [snd]; eauto.
  - now intros ->.
  - intros j activity -> -> ->. split; [|split].
    + now intros ->.
    + intros e ->. reflexivity.
    + now destruct (snd (on_turn env activity w)).
Qed.



(** X6.  [load_conversation_references] never raises and never writes the
    file.  Without a file it does nothing at all.  When the file does not
    parse, or parses to something that is not an object, the store is as
    before and the failure is announced. *)
Theorem load_is_failsafe w :
  snd (load_conversation_references w) = Ok tt /\
  file (fst (load_conversation_references w)) = file w /\
  (file w = NoFile -> fst (load_conversation_references w) = w) /\
  (forall e,
     file w = Content (Raise e) ->
     fst (load_conversation_references w)
     = log w [Print ("Error loading conversation references: " ++ exn_str e)]) /\
  (forall data,
     file w = Content (Ok data) ->
     (forall members, data <> JObj members) ->
     refs (fst (load_conversation_references w)) = refs w /\
     trace (fst (load_conversation_references w))
     = trace w
       ++ [Print ("Error loading conversation references: '"
                  ++ type_name data ++ "' object has no attribute 'items'")]).
Proof.
  split; [apply load_returns|]. split; [apply load_file|].
  rewrite load_eval. split; [|split].
  - now intros ->.
  - now intros e ->.
  - intros data -> N. destruct data; try (split; reflexivity).
    now destruct (N members).
Qed.



(** X8.  Loading twice is loading once: a second [load] on the same file
    leaves the store the first one made. *)
Theorem load_twice w :
  refs (fst (load_conversation_references
               (fst (load_conversation_references w))))
  = refs (fst (load_conversation_references w)).
Proof.
  rewrite (load_refs (fst (load_conversation_references w))), load_file.
  rewrite load_refs.
  destruct (file w) as [|[[| | | | |items]|e]]; auto.
  now destruct (load_result items []).
Qed.

(** X9.  [save_conversation_references] never raises and never changes the
    store.  When the file cannot be opened for writing, the file is left as
    it was and the failure is announced.  When the file can be opened and
    written, the file it leaves depends on the store alone, not on what the
    file held before, so saving twice leaves the file of saving once. *)
Theorem save_is_failsafe env w :
  snd (save_conversation_references env w) = Ok tt /\
  refs (fst (save_conversation_references env w)) = refs w /\
  (forall e,
     open_write env = Raise e ->
     file (fst (save_conversation_references env w)) = file w /\
     trace (fst (save_conversation_references env w))
     = trace w
       ++ [OpenWrite;
           Print ("Error saving conversation references: " ++ exn_str e)]) /\
  (writable env ->
   (forall w0,
      refs w0 = refs w ->
      file (fst (save_conversation_references env w0))
      = file (fst (save_conversation_references env w))) /\
   file (fst (save_conversation_references
                env (fst (save_conversation_references env w))))
   = file (fst (save_conversation_references env w))).
Proof.
  split; [apply save_returns|]. split; [apply save_refs|]. split.
  - intros e O. rewrite save_eval, O. split; reflexivity.
  - intros Wr. split.
    + intros w0 E.
      now rewrite !save_file, !(file_after_save_writable _ _ _ Wr), E.
    + now rewrite !save_file, !(file_after_save_writable _ _ _ Wr), save_refs.
Qed.

(** X10.  If the file can be opened for writing and the store holds a
    reference admitted by [load] (its conversation is a dictionary with a
    non-empty id), [save] leaves the file empty, whatever it held, and
    announces the error; the store is kept. *)
Theorem save_empties_file_on_loaded_reference env w key val :
  open_write env = Ok tt ->
  In (key, Loaded val) (refs w) ->
  conversation_id_ok (Loaded val) = true ->
  file (fst (save_conversation_references env w)) = empty_file /\
  refs (fst (save_conversation_references env w)) = refs w /\
  exists e,
    trace (fst (save_conversation_references env w))
    = trace w
      ++ [OpenWrite;
          Print ("Error saving conversation references: " ++ exn_str e)].
Proof.
  intros O I C. destruct (serialize_all_loaded (refs w) key val I C) as [e S].
  rewrite save_eval, O, S. cbn [fst file refs trace]. eauto.
Qed.

Lemma save_empties_file_on_loaded_reference_witness :
  file (fst (save_conversation_references
               sample_env
               (mkWorld (refs restarted)
                        (Content (Ok (JObj sample_members))) [])))
  = empty_file.
Proof.
  exact (proj1 (save_empties_file_on_loaded_reference
                  sample_env
                  (mkWorld (refs restarted)
                           (Content (Ok (JObj sample_members))) [])
                  "msteams:a"
                  [("activity_id", JStr "1");
                   ("user", JObj [("id", JStr "u1")]);
                   ("bot", JObj [("id", JStr "bot")]);
                   ("conversation", JObj [("id", JStr "a")]);
                   ("channel_id", JStr "msteams");
                   ("service_url", JStr "https://smba.example/amer")]
                  eq_refl (or_introl eq_refl) eq_refl)).
Defined.

(** X11.  Handling the same activity a second time records nothing: after a
    turn, a turn on the same activity leaves the store and the file as they
    are and does not open the file. *)
Theorem on_turn_repeated env env' a w :
  let w1 := fst (on_turn env a w) in
  let w2 := fst (on_turn env' a w1) in
  refs w2 = refs w1 /\ file w2 = file w1 /\
  exists tl, trace w2 = trace w1 ++ tl /\ existsb touches_file tl = false.
Proof.
  cbv zeta.
  assert (T : tracks (refs (fst (on_turn env a w))) a = false).
  { rewrite on_turn_refs. destruct (tracks (refs w) a) eqn:T; auto.
    now apply tracks_after_set. }
  destruct (on_turn_untracked env' a _ T) as [tl [E Q]].
  rewrite E. unfold log. cbn [refs file trace]. eauto.
Qed.

(** X12.  A turn never removes a key and never reorders the store: the keys
    after the turn are the keys before, with at most the activity's own key
    added at the end. *)
Theorem on_turn_keeps_keys env a w :
  keys (refs (fst (on_turn env a w))) = keys (refs w) \/
  (dict_has (refs w) (conversation_key_of a) = false /\
   keys (refs (fst (on_turn env a w)))
   = keys (refs w) ++ [conversation_key_of a]).
Proof.
  rewrite on_turn_refs. destruct (tracks (refs w) a); auto.
  rewrite keys_dict_set.
  destruct (dict_has (refs w) (conversation_key_of a)); auto.
Qed.







(** X16.  A broadcast only reads the store: whatever the store holds and
    whatever the transport does, also when the broadcast raises, the store
    and the file are as before, the file is not opened, the router is not run
    and no reply is sent; every transport call hands over a stored reference
    with the card built from it, and there is at most one call per entry. *)
Theorem broadcast_is_read_only env w :
  let w' := fst (send_adaptive_card env w) in
  refs w' = refs w /\ file w' = file w /\
  exists tl,
    trace w' = trace w ++ tl /\
    Forall (broadcast_event (refs w)) tl /\
    List.length (continues tl) <= List.length (refs w) /\
    router_calls tl = [] /\ sends tl = [] /\ existsb touches_file tl = false.
Proof.
  cbv zeta. unfold send_adaptive_card, bind, get_refs.
  destruct (refs w) as [|entry rest] eqn:R.
  - cbn [fst]. unfold print. rewrite emit_eval. unfold log.
    cbn [fst refs file trace]. rewrite R.
    repeat split; auto.
    exists [Print "No conversation references available."].
    repeat split; auto. constructor; [exact I|constructor].
  - destruct (send_loop_events env (entry :: rest) [] w) as [tl [E [F L]]].
    destruct (send_loop env (entry :: rest) [] w) as [w1 [rs|e]];
      cbn [fst] in *; subst w1; unfold log; cbn [refs file trace];
      (split; [exact R|]); (split; [reflexivity|]);
      exists tl; (split; [reflexivity|]); (split; [exact F|]);
      (split; [exact L|]); exact (broadcast_events_quiet _ _ F).
Qed.

(** X17.  A request that fails before the turn leaves everything as it was:
    when the body is not JSON, when the activity cannot be deserialized, or
    when the credential check raises, the endpoint answers without touching
    the store, the file or the trace, so the router is not run and nothing
    is recorded for an unauthenticated request. *)
Theorem messages_rejects_before_turn env request w :
  (body request = None \/
   (exists j e, body request = Some j /\ deserialize env j = Raise e) \/
   (exists j activity e,
      body request = Some j /\ deserialize env j = Ok activity /\
      authenticate env activity (auth_header_of request) = Raise e)) ->
  fst (messages env request w) = w /\
  exists detail code,
    snd (messages env request w)
    = Ok (mkHttpResponse code (JObj [("detail", JStr detail)])) /\
    (code = 400 \/ code = 500).
Proof.
  intros H. rewrite messages_eval.
  destruct H as [->|[[j [e [-> ->]]]|[j [activity [e [-> [-> ->]]]]]]];
    cbn [fst snd]; (split; [reflexivity|]);
    try (unfold answer_to, HTTPException; destruct (is_ValueError e));
    unfold HTTPException; eauto.
Qed.

Lemma messages_rejects_before_turn_witness :
  fst (messages
         (mkEnv (fun _ => Ok "never")
                (fun _ => Ok tt) (fun _ _ => Ok tt)
                (fun _ => Ok (sample_message "b"))
                (fun _ _ => Raise (mkExn (OtherError "PermissionError")
                                         "Unauthorized Access"))
                (Ok tt) (fun _ => Complete))
         sample_request restarted)
  = restarted.
Proof.
  refine (proj1 (messages_rejects_before_turn _ sample_request restarted _)).
  right. right.
  exists (JObj [("type", JStr "message");
                ("channelId", JStr "msteams");
                ("text", JStr "hello")]),
         (sample_message "b"),
         (mkExn (OtherError "PermissionError") "Unauthorized Access").
  repeat split.
Defined.



(** X19.  Start-up never fails and always yields a sound store: whatever the
    file holds, or if there is none, loading into the empty mapping returns
    normally and leaves a store with distinct keys, each with the Teams
    prefix and a conversation with a non-empty id; the file is not
    written. *)
Theorem startup_store_is_sound f :
  let w := fst (load_conversation_references (fresh_process f)) in
  snd (load_conversation_references (fresh_process f)) = Ok tt /\
  dict_wf (refs w) /\ store_inv (refs w) /\ file w = f.
Proof.
  cbv zeta. split; [apply load_returns|].
  rewrite load_file, load_refs. cbn [fresh_process file refs].
  assert (E : dict_wf (@nil (string * ConversationReference))
              /\ store_inv []).
  { split; [constructor|intros key r []]. }
  destruct E as [W0 I0].
  destruct f as [|[[| | | | |items]|e]]; auto.
  destruct (load_result items []) as [d|e] eqn:L; auto.
  split; [exact (load_result_wf _ _ _ L W0)|].
  split; [exact (load_result_inv _ _ _ L I0)|reflexivity].
Qed.

(** X20.  After start-up a broadcast cannot succeed: whatever the file
    holds, if loading it left any reference in the store, then
    [send_adaptive_card] raises [AttributeError], whatever the transport
    does; only when the store came out empty does it return, with status
    "error". *)
Theorem broadcast_after_startup env f :
  let w := fst (load_conversation_references (fresh_process f)) in
  (refs w <> [] ->
   exists tl,
     send_adaptive_card env w
     = (log w tl,
        Raise (mkExn AttributeError "'dict' object has no attribute 'id'"))) /\
  (refs w = [] ->
   exists r,
     snd (send_adaptive_card env w) = Ok r /\ status r = "error").
Proof.
  cbv zeta. split.
  - intros N. apply broadcast_raises_on_loaded_reference.
    + apply (startup_store_is_sound f).
    + destruct (refs (fst (load_conversation_references (fresh_process f))))
        as [|[key r] rest] eqn:R; [contradiction|].
      assert (B : is_built r = false).
      { assert (I : In (key, r)
                       (refs (fst (load_conversation_references
                                     (fresh_process f)))))
          by (rewrite R; now left).
        rewrite load_refs in I. cbn [fresh_process file refs] in I.
        destruct f as [|[[| | | | |items]|e]]; try contradiction.
        destruct (load_result items []) as [d|e] eqn:L; [|contradiction].
        apply (load_result_loaded _ _ _ L (fun _ _ F => match F with end)
                                  key r I). }
      unfold built_store. cbn [forallb snd]. now rewrite B.
  - intros E. unfold send_adaptive_card, bind, get_refs. rewrite E.
    eexists. split; reflexivity.
Qed.

Lemma broadcast_after_startup_witness :
  exists tl,
    send_adaptive_card
      sample_env
      (fst (load_conversation_references
              (fresh_process (Content (Ok (JObj sample_members))))))
    = (log (fst (load_conversation_references
                   (fresh_process (Content (Ok (JObj sample_members))))))
           tl,
       Raise (mkExn AttributeError "'dict' object has no attribute 'id'")).
Proof.
  refine (proj1 (broadcast_after_startup
                   sample_env (Content (Ok (JObj sample_members)))) _).
  discriminate.
Defined.
